(** * Differentiable primitive operations: arithmetic and the affine layer

    A shallow embedding of [chainer/functions/basic_math.py] and
    [chainer/functions/linear.py].

    - Array elements are kept behind the interface [Scalar]: the Python
      numeric tower and the element type of an array offer the same
      operations, and nothing below looks inside a number except through
      this interface.
    - The device intrinsics [__powf] and [__logf] of the accelerator
      kernels are operations of their own in that interface, apart from
      the power and the logarithm of the array library.
    - An array is its shape together with its elements in row-major order.
    - A Python object that is neither a number nor an array is given by
      what its class makes of the operations these sources apply to it.
    - Python exceptions are values of type [exn]; a computation that may
      raise returns a [result].
    - Methods that assign to [self] return the updated instance. *)

From stdpp Require Import base option list list_numbers strings gmap.
From Stdlib Require Import ZArith Lia.

Local Open Scope nat_scope.

(** ** Exceptions and the error monad *)

Inductive exn : Type :=
  | ZeroDivisionError   (* division of Python numbers by zero *)
  | TypeError           (* operand of an unsupported type *)
  | ValueError          (* shapes that do not fit; math domain error *)
  | IndexError          (* tuple index out of range *)
  | AttributeError      (* attribute read before it was assigned *)
  | KernelFault         (* an elementwise kernel reads outside an array *)
  | Unsupported.        (* not followed here: matrix operations on arrays
                           of other ranks, objects in arithmetic of
                           their own *)

Inductive result (A : Type) : Type :=
  | Ok (a : A)
  | Err (e : exn).
Arguments Ok {A} a.
Arguments Err {A} e.

Global Instance result_ret : MRet result := fun _ a => Ok a.
Global Instance result_bind : MBind result := fun _ _ f m =>
  match m with Ok a => f a | Err e => Err e end.
Global Instance result_fmap : FMap result := fun _ _ f m =>
  match m with Ok a => Ok (f a) | Err e => Err e end.

Definition is_Ok {A} (r : result A) : bool :=
  match r with Ok _ => true | Err _ => false end.

(** ** Numbers *)

Class Scalar (F : Type) : Type := {
  flit : Z → F;             (* a numeric literal: [1.], [2], [0] *)
  fadd : F → F → F;
  fsub : F → F → F;
  fmul : F → F → F;
  fdiv : F → F → F;         (* division as the array library does it *)
  fneg : F → F;
  fpow : F → F → F;
  flog : F → F;
  fexp : F → F;
  fsqrt : F → F;
  fis_zero : F → bool;      (* the test behind Python's ZeroDivisionError *)
  fin_log_domain : F → bool; (* the test behind [math.log]'s ValueError *)
  fpowf : F → F → F;        (* the device intrinsic [__powf] *)
  flogf : F → F             (* the device intrinsic [__logf] *)
}.

(** Exact integers: the instance used to run the definitions.  The two
    device intrinsics are given as the device documents them, [__powf(a, b)]
    as two to the power [b * log2(a)], so that on integers, as on floating
    point numbers, they are not the functions of the array library. *)
Global Instance Z_scalar : Scalar Z := {|
  flit := fun z => z;
  fadd := Z.add;
  fsub := Z.sub;
  fmul := Z.mul;
  fdiv := Z.div;
  fneg := Z.opp;
  fpow := Z.pow;
  flog := Z.log2;
  fexp := Z.pow 2;
  fsqrt := Z.sqrt;
  fis_zero := Z.eqb 0;
  fin_log_domain := Z.ltb 0;
  fpowf := fun a b => Z.pow 2 (b * Z.log2 a);
  flogf := Z.log2
|}.

(** ** The array library *)

Module np.
Section arrays.
Context {F : Type} `{!Scalar F}.

Record ndarray : Type := mk { shape : list nat; data : list F }.

Definition prod (s : list nat) : nat := foldr Nat.mul 1 s.

Definition size (a : ndarray) : nat := prod (shape a).

(** Every array the library hands out has as many elements as its shape
    announces. *)
Definition wf (a : ndarray) : Prop := length (data a) = prod (shape a).

Definition scalar (c : F) : ndarray := mk [] [c].

(** *** Broadcasting *)

(** Shapes are matched from the last axis; two extents fit when they are
    equal or one of them is 1. *)
Fixpoint broadcast_rev (r1 r2 : list nat) : option (list nat) :=
  match r1, r2 with
  | [], r => Some r
  | r, [] => Some r
  | a :: r1', b :: r2' =>
      if a =? b then cons a <$> broadcast_rev r1' r2'
      else if a =? 1 then cons b <$> broadcast_rev r1' r2'
      else if b =? 1 then cons a <$> broadcast_rev r1' r2'
      else None
  end.

Definition broadcast_shapes (s1 s2 : list nat) : option (list nat) :=
  reverse <$> broadcast_rev (reverse s1) (reverse s2).

(** [bcast s t d]: the elements of an array of shape [s] stretched to shape
    [t], for [s] and [t] of the same rank. *)
Fixpoint bcast (s t : list nat) (d : list F) : list F :=
  match s, t with
  | a :: s', b :: t' =>
      if a =? b
      then mjoin (bcast s' t' <$> reshape (replicate a (prod s')) d)
      else mjoin (replicate b (bcast s' t' d))
  | _, _ => d
  end.

Definition broadcast_to (s t : list nat) (d : list F) : list F :=
  bcast (replicate (length t - length s) 1 ++ s) t d.

(** [a ∘ b] for an elementwise operator. *)
Definition binop (f : F → F → F) (a b : ndarray) : result ndarray :=
  match broadcast_shapes (shape a) (shape b) with
  | None => Err ValueError
  | Some s =>
      Ok (mk s (zip_with f (broadcast_to (shape a) s (data a))
                           (broadcast_to (shape b) s (data b))))
  end.

(** [a ∘= b]: the result is stored in [a], so it must have [a]'s shape. *)
Definition inplace (f : F → F → F) (a b : ndarray) : result ndarray :=
  match broadcast_shapes (shape a) (shape b) with
  | None => Err ValueError
  | Some s =>
      if decide (s = shape a)
      then Ok (mk s (zip_with f (data a) (broadcast_to (shape b) s (data b))))
      else Err ValueError
  end.

Definition unop (f : F → F) (a : ndarray) : ndarray :=
  mk (shape a) (f <$> data a).

Definition add := binop fadd.
Definition subtract := binop fsub.
Definition multiply := binop fmul.
Definition divide := binop fdiv.
Definition power := binop fpow.
Definition negative := unop fneg.
Definition log := unop flog.
Definition exp := unop fexp.
Definition iadd := inplace fadd.

(** *** Shapes *)

(** The elements cut into [n] consecutive runs of [k]: the rows of an
    [n] by [k] matrix. *)
Definition rows (n k : nat) (d : list F) : list (list F) :=
  reshape (replicate n k) d.

Definition reshape (a : ndarray) (s : list nat) : result ndarray :=
  if prod s =? size a then Ok (mk s (data a)) else Err ValueError.

Definition empty_like (junk : nat → F) (a : ndarray) : ndarray :=
  mk (shape a) (junk <$> seq 0 (size a)).

Definition repeat (c : F) (n : nat) : ndarray := mk [n] (replicate n c).

(** *** Matrices *)

Definition column (j : nat) (rs : list (list F)) : list F :=
  (λ r, nth j r (flit 0)) <$> rs.

Definition columns (k : nat) (rs : list (list F)) : list (list F) :=
  (λ j, column j rs) <$> seq 0 k.

Definition inner (u v : list F) : F :=
  foldl fadd (flit 0) (zip_with fmul u v).

(** [a.T] *)
Definition T (a : ndarray) : result ndarray :=
  match shape a with
  | [] | [_] => Ok a
  | [n; k] => Ok (mk [k; n] (mjoin (columns k (rows n k (data a)))))
  | _ => Err Unsupported
  end.

(** [a.dot(b)] *)
Definition dot (a b : ndarray) : result ndarray :=
  match shape a, shape b with
  | [n; k], [k'; m] =>
      if k =? k'
      then Ok (mk [n; m]
                 (mjoin ((λ r, inner r <$> columns m (rows k m (data b)))
                           <$> rows n k (data a))))
      else Err ValueError
  | _, _ => Err Unsupported
  end.

(** [a.sum(0)] *)
Definition sum0 (a : ndarray) : result ndarray :=
  match shape a with
  | [n; k] =>
      Ok (mk [k] ((λ c, foldl fadd (flit 0) c)
                    <$> columns k (rows n k (data a))))
  | _ => Err Unsupported
  end.

End arrays.
Arguments ndarray F : clear implicits.
End np.

(** ** Graph values and the calling convention *)

Inductive backend : Type := CPU | GPU.

(** What a dispatch function may receive besides a graph value: a Python
    number, an array, or any other object.  Such an object is what its
    class makes of the three things these sources do with it: the array
    library reading it as an operand of arithmetic with an array (a list of
    numbers is read as an array, a string is rejected with [TypeError]),
    [-o], and [1. / o].  Each of them returns or raises. *)
Inductive constant (F : Type) : Type :=
  | Num (c : F)
  | Arr (a : np.ndarray F)
  | Obj (o : object F)
with object (F : Type) : Type :=
  | PyObject (repr : string)
             (operand : result (np.ndarray F))
             (negated inverted : result (constant F)).
Arguments Num {F} c.
Arguments Arr {F} a.
Arguments Obj {F} o.
Arguments PyObject {F} repr operand negated inverted.

Definition obj_operand {F} (o : object F) : result (np.ndarray F) :=
  match o with PyObject _ a _ _ => a end.

Definition obj_neg {F} (o : object F) : result (constant F) :=
  match o with PyObject _ _ n _ => n end.

Definition obj_rdiv {F} (o : object F) : result (constant F) :=
  match o with PyObject _ _ _ r => r end.

Module basic_math.
Section operations.
Context {F : Type} `{!Scalar F}.

(** Fresh accelerator memory holds whatever was there before. *)
Variable junk : nat → F.

Local Abbreviation ndarray := (np.ndarray F).

(** [x[i]] on a tuple of arrays. *)
Definition item (x : list ndarray) (i : nat) : result ndarray :=
  match x !! i with Some a => Ok a | None => Err IndexError end.

(** The array a constant stands for inside an array expression: a number
    takes part as an array without axes, another object as whatever the
    array library reads it as, if it accepts it. *)
Definition as_array (v : constant F) : result ndarray :=
  match v with
  | Num c => Ok (np.scalar c)
  | Arr a => Ok a
  | Obj o => obj_operand o
  end.

(** [-v] *)
Definition py_neg (v : constant F) : result (constant F) :=
  match v with
  | Num c => Ok (Num (fneg c))
  | Arr a => Ok (Arr (np.negative a))
  | Obj o => obj_neg o
  end.

(** [1. / v]: Python's own division raises on a zero number; the array
    library's division does not. *)
Definition py_reciprocal (v : constant F) : result (constant F) :=
  match v with
  | Num c =>
      if fis_zero c then Err ZeroDivisionError
      else Ok (Num (fdiv (flit 1) c))
  | Arr a => Arr <$> np.divide (np.scalar (flit 1)) a
  | Obj o => obj_rdiv o
  end.

(** [v - 1]: what another object makes of it is not followed. *)
Definition py_sub_one (v : constant F) : result ndarray :=
  match v with
  | Obj _ => Err Unsupported
  | _ => a ← as_array v; np.subtract a (np.scalar (flit 1))
  end.

(** [math.log(c)] *)
Definition math_log (c : F) : result F :=
  if fin_log_domain c then Ok (flog c) else Err ValueError.

(** [numpy.log(v)]: an object is read as an array, if the library accepts
    it; how it is rejected otherwise is not followed. *)
Definition numpy_log (v : constant F) : result ndarray :=
  match v with
  | Obj o =>
      match obj_operand o with
      | Ok a => Ok (np.log a)
      | Err _ => Err Unsupported
      end
  | _ => np.log <$> as_array v
  end.

(** *** Elementwise kernels *)

Definition get (a : ndarray) (i : nat) : result F :=
  match np.data a !! i with Some v => Ok v | None => Err KernelFault end.

(** A kernel runs its body for every index below [n]. *)
Definition elementwise {A} (n : nat) (body : nat → result A)
  : result (list A) :=
  mapM body (seq 0 n).

(** [cuda.empty_like(a)] after a kernel has stored [out] at its start. *)
Definition filled (a : ndarray) (out : list F) : ndarray :=
  np.mk (np.shape a)
        (out ++ drop (length out) (np.data (np.empty_like junk a))).

(** A kernel argument declared [const float value] or
    [const float* value].  What the driver does with an object that is
    neither a number nor an array is not followed. *)
Definition kernel_argument (v : constant F) : result unit :=
  match v with
  | Obj _ => Err Unsupported
  | _ => Ok ()
  end.

Definition kernel_value (v : constant F) (i : nat) : result F :=
  match v with
  | Num c => Ok c
  | Arr a => get a i
  | Obj _ => Err Unsupported
  end.

(** *** Operation instances *)

Inductive function : Type :=
  | Neg
  | Add
  | AddConstant (value : constant F)
  | Sub
  | SubFromConstant (value : constant F)
  | Mul
  | MulConstant (value : constant F)
  | Div
  | DivFromConstant (value : constant F)
  | PowVarVar (y : option ndarray)
  | PowVarConst (value : constant F)
  | PowConstVar (value : constant F) (y : option ndarray)
  | Exp (y : option ndarray)
  | Log.

(** [self.y] *)
Definition attr (y : option ndarray) : result ndarray :=
  match y with Some a => Ok a | None => Err AttributeError end.

(** **** Neg *)

Definition Neg_forward (x : list ndarray) : result (list ndarray) :=
  x0 ← item x 0; Ok [np.negative x0].

Definition Neg_backward (x gy : list ndarray) : result (list ndarray) :=
  g ← item gy 0; Ok [np.negative g].

(** **** Add, AddConstant *)

Definition Add_forward (x : list ndarray) : result (list ndarray) :=
  x0 ← item x 0; x1 ← item x 1; y ← np.add x0 x1; Ok [y].

Definition Add_backward (x gy : list ndarray) : result (list ndarray) :=
  g ← item gy 0; g' ← item gy 0; Ok [g; g'].

Definition AddConstant_forward (value : constant F) (x : list ndarray)
  : result (list ndarray) :=
  x0 ← item x 0; v ← as_array value; y ← np.add x0 v; Ok [y].

Definition AddConstant_backward (value : constant F) (x gy : list ndarray)
  : result (list ndarray) :=
  g ← item gy 0; Ok [g].

(** **** Sub, SubFromConstant *)

Definition Sub_forward (x : list ndarray) : result (list ndarray) :=
  x0 ← item x 0; x1 ← item x 1; y ← np.subtract x0 x1; Ok [y].

Definition Sub_backward (x gy : list ndarray) : result (list ndarray) :=
  g ← item gy 0; g' ← item gy 0; Ok [g; np.negative g'].

Definition SubFromConstant_forward (value : constant F) (x : list ndarray)
  : result (list ndarray) :=
  x0 ← item x 0; v ← as_array value; y ← np.subtract v x0; Ok [y].

Definition SubFromConstant_backward (value : constant F)
    (x gy : list ndarray) : result (list ndarray) :=
  g ← item gy 0; Ok [np.negative g].

(** **** Mul, MulConstant *)

Definition Mul_forward (x : list ndarray) : result (list ndarray) :=
  x0 ← item x 0; x1 ← item x 1; y ← np.multiply x0 x1; Ok [y].

Definition Mul_backward_cpu (x gy : list ndarray) : result (list ndarray) :=
  g ← item gy 0; x1 ← item x 1; gx0 ← np.multiply g x1;
  g' ← item gy 0; x0 ← item x 0; gx1 ← np.multiply g' x0;
  Ok [gx0; gx1].

Definition Mul_backward_gpu (x gy : list ndarray) : result (list ndarray) :=
  x0 ← item x 0; x1 ← item x 1; g ← item gy 0;
  out ← elementwise (np.size x0) (λ i,
    a ← get x0 i; b ← get x1 i; gi ← get g i;
    Ok (fmul gi b, fmul gi a));
  Ok [filled x0 (fst <$> out); filled x1 (snd <$> out)].

Definition MulConstant_forward (value : constant F) (x : list ndarray)
  : result (list ndarray) :=
  x0 ← item x 0; v ← as_array value; y ← np.multiply v x0; Ok [y].

Definition MulConstant_backward (value : constant F) (x gy : list ndarray)
  : result (list ndarray) :=
  g ← item gy 0; v ← as_array value; gx ← np.multiply v g; Ok [gx].

(** **** Div, DivFromConstant *)

Definition Div_forward (x : list ndarray) : result (list ndarray) :=
  x0 ← item x 0; x1 ← item x 1; y ← np.divide x0 x1; Ok [y].

Definition Div_backward_cpu (x gy : list ndarray) : result (list ndarray) :=
  g ← item gy 0; x1 ← item x 1; gx0 ← np.divide g x1;
  x0 ← item x 0; t ← np.multiply (np.negative gx0) x0;
  x1' ← item x 1; gx1 ← np.divide t x1';
  Ok [gx0; gx1].

Definition Div_backward_gpu (x gy : list ndarray) : result (list ndarray) :=
  x0 ← item x 0; x1 ← item x 1; g ← item gy 0;
  out ← elementwise (np.size x0) (λ i,
    a ← get x0 i; b ← get x1 i; gi ← get g i;
    let gx0 := fdiv gi b in
    Ok (gx0, fdiv (fmul (fneg gx0) a) b));
  Ok [filled x0 (fst <$> out); filled x1 (snd <$> out)].

Definition DivFromConstant_forward (value : constant F) (x : list ndarray)
  : result (list ndarray) :=
  x0 ← item x 0; v ← as_array value; y ← np.divide v x0; Ok [y].

Definition DivFromConstant_backward_cpu (value : constant F)
    (x gy : list ndarray) : result (list ndarray) :=
  nv ← py_neg value; nv ← as_array nv;
  g ← item gy 0; t ← np.multiply nv g;
  x0 ← item x 0; sq ← np.power x0 (np.scalar (flit 2));
  gx ← np.divide t sq;
  Ok [gx].

Definition DivFromConstant_backward_gpu (value : constant F)
    (x gy : list ndarray) : result (list ndarray) :=
  x0 ← item x 0; g ← item gy 0; _ ← kernel_argument value;
  out ← elementwise (np.size x0) (λ i,
    a ← get x0 i; gi ← get g i; v ← kernel_value value i;
    Ok (fdiv (fmul (fneg v) gi) (fmul a a)));
  Ok [filled x0 out].

(** **** PowVarVar *)

Definition PowVarVar_forward_cpu (x : list ndarray)
  : result (function * list ndarray) :=
  x0 ← item x 0; x1 ← item x 1; y ← np.power x0 x1;
  Ok (PowVarVar (Some y), [y]).

Definition PowVarVar_forward_gpu (x : list ndarray)
  : result (list ndarray) :=
  x0 ← item x 0; x1 ← item x 1; y ← np.power x0 x1; Ok [y].

Definition PowVarVar_backward_cpu (y : option ndarray) (x gy : list ndarray)
  : result (list ndarray) :=
  x1 ← item x 1; x0 ← item x 0; x1' ← item x 1;
  e ← np.subtract x1' (np.scalar (flit 1));
  p ← np.power x0 e; t ← np.multiply x1 p;
  g ← item gy 0; gx0 ← np.multiply t g;
  x0' ← item x 0; sy ← attr y; u ← np.multiply (np.log x0') sy;
  g' ← item gy 0; gx1 ← np.multiply u g';
  Ok [gx0; gx1].

Definition PowVarVar_backward_gpu (x gy : list ndarray)
  : result (list ndarray) :=
  x0 ← item x 0; x1 ← item x 1; g ← item gy 0;
  out ← elementwise (np.size x0) (λ i,
    a ← get x0 i; b ← get x1 i; gi ← get g i;
    Ok (fmul (fmul b (fpowf a (fsub b (flit 1)))) gi,
        fmul (fmul (flogf a) (fpowf a b)) gi));
  Ok [filled x0 (fst <$> out); filled x1 (snd <$> out)].

(** **** PowVarConst *)

Definition PowVarConst_forward (value : constant F) (x : list ndarray)
  : result (list ndarray) :=
  x0 ← item x 0; v ← as_array value; y ← np.power x0 v; Ok [y].

Definition PowVarConst_backward_cpu (value : constant F)
    (x gy : list ndarray) : result (list ndarray) :=
  x0 ← item x 0; e ← py_sub_one value;
  p ← np.power x0 e; v ← as_array value; t ← np.multiply v p;
  g ← item gy 0; gx ← np.multiply t g;
  Ok [gx].

Definition PowVarConst_backward_gpu (value : constant F)
    (x gy : list ndarray) : result (list ndarray) :=
  x0 ← item x 0; g ← item gy 0; _ ← kernel_argument value;
  out ← elementwise (np.size x0) (λ i,
    a ← get x0 i; gi ← get g i; v ← kernel_value value i;
    Ok (fmul (fmul v (fpowf a (fsub v (flit 1)))) gi));
  Ok [filled x0 out].

(** **** PowConstVar *)

Definition PowConstVar_forward_cpu (value : constant F) (x : list ndarray)
  : result (function * list ndarray) :=
  x0 ← item x 0; v ← as_array value; y ← np.power v x0;
  Ok (PowConstVar value (Some y), [y]).

Definition PowConstVar_forward_gpu (value : constant F) (x : list ndarray)
  : result (list ndarray) :=
  x0 ← item x 0; _ ← kernel_argument value;
  out ← elementwise (np.size x0) (λ i,
    a ← get x0 i; v ← kernel_value value i; Ok (fpowf v a));
  Ok [filled x0 out].

Definition PowConstVar_backward_cpu (value : constant F)
    (y : option ndarray) (x gy : list ndarray) : result (list ndarray) :=
  lv ← numpy_log value; sy ← attr y; t ← np.multiply lv sy;
  g ← item gy 0; gx ← np.multiply t g;
  Ok [gx].

Definition PowConstVar_backward_gpu (value : constant F)
    (x gy : list ndarray) : result (list ndarray) :=
  x0 ← item x 0;
  match value with
  | Num c =>
      logv ← math_log c; g ← item gy 0;
      out ← elementwise (np.size x0) (λ i,
        a ← get x0 i; gi ← get g i;
        Ok (fmul (fmul logv (fpowf c a)) gi));
      Ok [filled x0 out]
  | _ =>
      g ← item gy 0; _ ← kernel_argument value;
      out ← elementwise (np.size x0) (λ i,
        a ← get x0 i; gi ← get g i; v ← kernel_value value i;
        Ok (fmul (fmul (flogf v) (fpowf v a)) gi));
      Ok [filled x0 out]
  end.

(** **** Exp, Log *)

Definition Exp_forward_cpu (x : list ndarray)
  : result (function * list ndarray) :=
  x0 ← item x 0; let y := np.exp x0 in Ok (Exp (Some y), [y]).

Definition Exp_forward_gpu (x : list ndarray)
  : result (function * list ndarray) :=
  x0 ← item x 0; let y := np.exp x0 in Ok (Exp (Some y), [y]).

Definition Exp_backward (y : option ndarray) (x gy : list ndarray)
  : result (list ndarray) :=
  sy ← attr y; g ← item gy 0; gx ← np.multiply sy g; Ok [gx].

Definition Log_forward_cpu (x : list ndarray) : result (list ndarray) :=
  x0 ← item x 0; Ok [np.log x0].

Definition Log_forward_gpu (x : list ndarray) : result (list ndarray) :=
  x0 ← item x 0; Ok [np.log x0].

Definition Log_backward (x gy : list ndarray) : result (list ndarray) :=
  g ← item gy 0; x0 ← item x 0; gx ← np.divide g x0; Ok [gx].

(** *** Method lookup

    An operation that defines [forward] (or [backward]) uses it on every
    backend; one that defines the [_cpu]/[_gpu] pair uses the one of the
    active backend. *)

Definition forward (bk : backend) (f : function) (x : list ndarray)
  : result (function * list ndarray) :=
  match f, bk with
  | Neg, _ => pair f <$> Neg_forward x
  | Add, _ => pair f <$> Add_forward x
  | AddConstant v, _ => pair f <$> AddConstant_forward v x
  | Sub, _ => pair f <$> Sub_forward x
  | SubFromConstant v, _ => pair f <$> SubFromConstant_forward v x
  | Mul, _ => pair f <$> Mul_forward x
  | MulConstant v, _ => pair f <$> MulConstant_forward v x
  | Div, _ => pair f <$> Div_forward x
  | DivFromConstant v, _ => pair f <$> DivFromConstant_forward v x
  | PowVarVar _, CPU => PowVarVar_forward_cpu x
  | PowVarVar _, GPU => pair f <$> PowVarVar_forward_gpu x
  | PowVarConst v, _ => pair f <$> PowVarConst_forward v x
  | PowConstVar v _, CPU => PowConstVar_forward_cpu v x
  | PowConstVar v _, GPU => pair f <$> PowConstVar_forward_gpu v x
  | Exp _, CPU => Exp_forward_cpu x
  | Exp _, GPU => Exp_forward_gpu x
  | Log, CPU => pair f <$> Log_forward_cpu x
  | Log, GPU => pair f <$> Log_forward_gpu x
  end.

Definition backward (bk : backend) (f : function) (x gy : list ndarray)
  : result (list ndarray) :=
  match f, bk with
  | Neg, _ => Neg_backward x gy
  | Add, _ => Add_backward x gy
  | AddConstant v, _ => AddConstant_backward v x gy
  | Sub, _ => Sub_backward x gy
  | SubFromConstant v, _ => SubFromConstant_backward v x gy
  | Mul, CPU => Mul_backward_cpu x gy
  | Mul, GPU => Mul_backward_gpu x gy
  | MulConstant v, _ => MulConstant_backward v x gy
  | Div, CPU => Div_backward_cpu x gy
  | Div, GPU => Div_backward_gpu x gy
  | DivFromConstant v, CPU => DivFromConstant_backward_cpu v x gy
  | DivFromConstant v, GPU => DivFromConstant_backward_gpu v x gy
  | PowVarVar y, CPU => PowVarVar_backward_cpu y x gy
  | PowVarVar _, GPU => PowVarVar_backward_gpu x gy
  | PowVarConst v, CPU => PowVarConst_backward_cpu v x gy
  | PowVarConst v, GPU => PowVarConst_backward_gpu v x gy
  | PowConstVar v y, CPU => PowConstVar_backward_cpu v y x gy
  | PowConstVar v _, GPU => PowConstVar_backward_gpu v x gy
  | Exp y, _ => Exp_backward y x gy
  | Log, _ => Log_backward x gy
  end.

(** *** Graph values *)

Record variable : Type := {
  data : ndarray;
  device : backend;
  creator : option function
}.

Inductive operand : Type :=
  | Var (v : variable)
  | Const (c : constant F).

Definition active_backend (args : list variable) : backend :=
  if existsb (λ v, match device v with GPU => true | CPU => false end) args
  then GPU else CPU.

(** Modelled from the spec: the graph framework's way of applying an
    operation instance to graph values, which is not part of these
    sources.  It runs [forward] on the values' underlying arrays and wraps
    the result in a new graph value that records the instance. *)
Definition call (f : function) (args : list variable) : result variable :=
  let bk := active_backend args in
  '(f', ys) ← forward bk f (data <$> args);
  y ← item ys 0;
  Ok {| data := y; device := bk; creator := Some f' |}.

(** What a dispatch function did: the operation instances it constructed,
    in order, and what it returned or raised. *)
Record dispatched : Type := {
  constructed : list function;
  outcome : result variable
}.

(** [f(args)] for a freshly constructed instance [f]. *)
Definition invoke (f : function) (args : list variable) : dispatched :=
  {| constructed := [f]; outcome := call f args |}.

(** An exception raised before anything was constructed. *)
Definition raised (e : exn) : dispatched :=
  {| constructed := []; outcome := Err e |}.

(** *** Dispatch functions *)

Definition neg (x : variable) : dispatched := invoke Neg [x].

Definition add (lhs : variable) (rhs : operand) : dispatched :=
  match rhs with
  | Var r => invoke Add [lhs; r]
  | Const c => invoke (AddConstant c) [lhs]
  end.

Definition sub (lhs : variable) (rhs : operand) : dispatched :=
  match rhs with
  | Var r => invoke Sub [lhs; r]
  | Const c =>
      match py_neg c with
      | Ok c' => invoke (AddConstant c') [lhs]
      | Err e => raised e
      end
  end.

Definition rsub (lhs : variable) (rhs : operand) : dispatched :=
  match rhs with
  | Var r => invoke Sub [r; lhs]
  | Const c => invoke (SubFromConstant c) [lhs]
  end.

Definition mul (lhs : variable) (rhs : operand) : dispatched :=
  match rhs with
  | Var r => invoke Mul [lhs; r]
  | Const c => invoke (MulConstant c) [lhs]
  end.

Definition div (lhs : variable) (rhs : operand) : dispatched :=
  match rhs with
  | Var r => invoke Div [lhs; r]
  | Const c =>
      match py_reciprocal c with
      | Ok c' => invoke (MulConstant c') [lhs]
      | Err e => raised e
      end
  end.

Definition rdiv (lhs : variable) (rhs : operand) : dispatched :=
  match rhs with
  | Var r => invoke Div [r; lhs]
  | Const c => invoke (DivFromConstant c) [lhs]
  end.

Definition pow (lhs : variable) (rhs : operand) : dispatched :=
  match rhs with
  | Var r => invoke (PowVarVar None) [lhs; r]
  | Const c => invoke (PowVarConst c) [lhs]
  end.

Definition rpow (lhs : variable) (rhs : operand) : dispatched :=
  match rhs with
  | Var r => invoke (PowVarVar None) [r; lhs]
  | Const c => invoke (PowConstVar c None) [lhs]
  end.

Definition exp (x : variable) : dispatched := invoke (Exp None) [x].

Definition log (x : variable) : dispatched := invoke Log [x].

(** *** Operator slots *)

Inductive method : Type :=
  | Unary (f : variable → dispatched)
  | Binary (f : variable → operand → dispatched).

(** The assignments to the attributes of the graph-value class, in the
    order of the source. *)
Definition install_variable_arithmetics (cls : gmap string method)
  : gmap string method :=
  let cls := <["__neg__" := Unary neg]> cls in
  let cls := <["__add__" := Binary add]> cls in
  let cls := <["__radd__" := Binary add]> cls in
  let cls := <["__sub__" := Binary sub]> cls in
  let cls := <["__rsub__" := Binary rsub]> cls in
  let cls := <["__mul__" := Binary mul]> cls in
  let cls := <["__rmul__" := Binary mul]> cls in
  let cls := <["__div__" := Binary div]> cls in
  let cls := <["__truediv__" := Binary div]> cls in
  let cls := <["__rdiv__" := Binary rdiv]> cls in
  let cls := <["__rtruediv__" := Binary rdiv]> cls in
  let cls := <["__pow__" := Binary pow]> cls in
  let cls := <["__rpow__" := Binary rpow]> cls in
  cls.

(** [x ∘ c] and [c ∘ x] for a graph value [x] and a plain constant [c]:
    Python calls the slot of [x], the reflected one when [x] is on the
    right, with [x] as the first argument in both cases. *)
Definition binary_op (cls : gmap string method) (slot : string)
    (x : variable) (other : operand) : dispatched :=
  match cls !! slot with
  | Some (Binary f) => f x other
  | _ => raised TypeError
  end.

End operations.
Arguments function F : clear implicits.
Arguments variable F : clear implicits.
Arguments operand F : clear implicits.
Arguments dispatched F : clear implicits.
Arguments method F : clear implicits.
End basic_math.

(** ** The affine layer *)

Module linear.
Section layer.
Context {F : Type} `{!Scalar F}.

(** [numpy.float32(c)]: rounding to single precision. *)
Variable float32 : F → F.

(** [numpy.random.normal(loc, scale, ...)]: the [i]-th number drawn.  The
    library refuses a negative [scale]; the construction is followed for
    the scales it accepts. *)
Variable normal : F → F → nat → F.

(** What freshly allocated memory holds, for [gW] and for [gb]. *)
Variables junkW junkb : nat → F.

Local Abbreviation ndarray := (np.ndarray F).

Definition _as_mat (x : ndarray) : result ndarray :=
  match np.shape x with
  | [] => Err IndexError
  | n :: _ =>
      if n =? 0 then Err ZeroDivisionError
      else np.reshape x [n; np.size x / n]
  end.

Record Linear : Type := {
  W : ndarray;
  gW : ndarray;
  b : option ndarray;
  gb : option ndarray
}.

Definition set_gW (self : Linear) (a : ndarray) : Linear :=
  {| W := W self; gW := a; b := b self; gb := gb self |}.

Definition set_gb (self : Linear) (a : ndarray) : Linear :=
  {| W := W self; gW := gW self; b := b self; gb := Some a |}.

Definition __init__ (in_size out_size : nat) (wscale bias : F)
    (nobias : bool) : result Linear :=
  if in_size =? 0 then Err ZeroDivisionError
  else
    let scale :=
      fmul wscale (fsqrt (fdiv (flit 1) (flit (Z.of_nat in_size)))) in
    let W0 :=
      np.mk [out_size; in_size]
            ((λ i, float32 (normal (flit 0) scale i))
               <$> seq 0 (out_size * in_size)) in
    let gW0 := np.empty_like junkW W0 in
    if nobias
    then Ok {| W := W0; gW := gW0; b := None; gb := None |}
    else
      let b0 := np.repeat (float32 bias) out_size in
      Ok {| W := W0; gW := gW0;
            b := Some b0; gb := Some (np.empty_like junkb b0) |}.

Definition parameter_names (self : Linear) : list string :=
  match b self with
  | None => ["W"]
  | Some _ => ["W"; "b"]
  end.

Definition gradient_names (self : Linear) : list string :=
  match gb self with
  | None => ["gW"]
  | Some _ => ["gW"; "gb"]
  end.

Definition forward_cpu (self : Linear) (x : list ndarray)
  : result (list ndarray) :=
  x0 ← basic_math.item x 0; x ← _as_mat x0;
  Wt ← np.T (W self); Wx ← np.dot x Wt;
  match b self with
  | Some bias => Wx ← np.iadd Wx bias; Ok [Wx]
  | None => Ok [Wx]
  end.

Definition forward_gpu (self : Linear) (x : list ndarray)
  : result (list ndarray) :=
  x0 ← basic_math.item x 0; x ← _as_mat x0;
  Wt ← np.T (W self); y ← np.dot x Wt;
  match b self with
  | Some bias =>
      out ← basic_math.elementwise (np.size y) (λ i,
        yi ← basic_math.get y i;
        bi ← basic_math.get bias (i mod np.size bias);
        Ok (fadd yi bi));
      Ok [np.mk (np.shape y) out]
  | None => Ok [y]
  end.

(** [backward] assigns to [self.gW] and [self.gb] before it returns, so
    the instance comes back also when a later step raises. *)
Definition backward_cpu (self : Linear) (x gy : list ndarray)
  : Linear * result (list ndarray) :=
  match x0 ← basic_math.item x 0; _x ← _as_mat x0;
        g ← basic_math.item gy 0; gT ← np.T g; c ← np.dot gT _x;
        np.iadd (gW self) c with
  | Err e => (self, Err e)
  | Ok gW' =>
      let self := set_gW self gW' in
      match match gb self with
            | Some acc =>
                g ← basic_math.item gy 0; s ← np.sum0 g;
                acc' ← np.iadd acc s; Ok (set_gb self acc')
            | None => Ok self
            end with
      | Err e => (self, Err e)
      | Ok self =>
          (self,
           g ← basic_math.item gy 0; gx ← np.dot g (W self);
           x0 ← basic_math.item x 0; gx ← np.reshape gx (np.shape x0);
           Ok [gx])
      end
  end.

Definition backward_gpu (self : Linear) (x gy : list ndarray)
  : Linear * result (list ndarray) :=
  match x0 ← basic_math.item x 0; _x ← _as_mat x0;
        g ← basic_math.item gy 0; gT ← np.T g; c ← np.dot gT _x;
        if decide (np.shape c = np.shape (gW self))
        then np.iadd (gW self) c else Err ValueError with
  | Err e => (self, Err e)
  | Ok gW' =>
      let self := set_gW self gW' in
      match match gb self with
            | Some acc =>
                g ← basic_math.item gy 0; s ← np.sum0 g;
                acc' ← np.iadd acc s; Ok (set_gb self acc')
            | None => Ok self
            end with
      | Err e => (self, Err e)
      | Ok self =>
          (self,
           x0 ← basic_math.item x 0; _x ← _as_mat x0;
           g ← basic_math.item gy 0; gx ← np.dot g (W self);
           if decide (np.shape gx = np.shape _x)
           then gx ← np.reshape gx (np.shape x0); Ok [gx]
           else Err ValueError)
      end
  end.

(** A run of [backward] calls on one instance, nothing in between.  It
    returns the instance and the input gradients of the calls, and stops
    at the first call that raises. *)
Fixpoint backward_all (self : Linear)
    (calls : list (list ndarray * list ndarray))
  : Linear * result (list (list ndarray)) :=
  match calls with
  | [] => (self, Ok [])
  | (x, gy) :: rest =>
      match backward_cpu self x gy with
      | (self, Err e) => (self, Err e)
      | (self, Ok gx) =>
          match backward_all self rest with
          | (self, Err e) => (self, Err e)
          | (self, Ok gxs) => (self, Ok (gx :: gxs))
          end
      end
  end.

End layer.
Arguments Linear F : clear implicits.
End linear.

(** ** Vocabulary of the statements *)

Section vocabulary.
Context {F : Type} `{!Scalar F}.

(** The elements a constant contributes to an array of [n] elements. *)
Definition spread (v : constant F) (n : nat) : list F :=
  match v with
  | Num c => replicate n c
  | Arr a => np.data a
  | Obj _ => []
  end.

(** A number, or an array of the shape of [x]. *)
Definition fits (v : constant F) (x : np.ndarray F) : Prop :=
  match v with
  | Num _ => True
  | Arr a => np.shape a = np.shape x ∧ np.wf a
  | Obj _ => False
  end.

Definition cmap (f : F → F) (v : constant F) : constant F :=
  match v with
  | Num c => Num (f c)
  | Arr a => Arr (np.unop f a)
  | Obj s => Obj s
  end.

(** A dispatch that raised a type error without constructing anything. *)
Definition raises_before_construction (d : basic_math.dispatched F) : Prop :=
  basic_math.constructed d = [] ∧ basic_math.outcome d = Err TypeError.

(** [math.log] accepts the constant. *)
Definition log_defined (v : constant F) : Prop :=
  match v with Num c => fin_log_domain c = true | _ => True end.

(** The logarithms the accelerator's [PowConstVar.backward] multiplies
    by: [math.log] of a number, taken on the host, the device's [__logf]
    of the elements of an array. *)
Definition device_log (v : constant F) (n : nat) : list F :=
  match v with
  | Num c => replicate n (flog c)
  | Arr a => flogf <$> np.data a
  | Obj _ => []
  end.

(** The rows of [x·Wᵀ + b]: every row of [x] against every row of [W],
    plus the bias when there is one. *)
Definition affine_rows (n in_size out_size : nat) (dW : list F)
    (bias : option (list F)) (d : list F) : list (list F) :=
  (λ xr, let y := np.inner xr <$> np.rows out_size in_size dW in
         match bias with Some bd => zip_with fadd y bd | None => y end)
    <$> np.rows n in_size d.

(** [gyᵀ·X_flat], what one [backward] adds to [gW]. *)
Definition gW_contribution (x gy : list (np.ndarray F)) : result (np.ndarray F) :=
  x0 ← basic_math.item x 0; X ← linear._as_mat x0;
  g ← basic_math.item gy 0; gT ← np.T g; np.dot gT X.

(** The column sums of [gy], what one [backward] adds to [gb]. *)
Definition gb_contribution (gy : list (np.ndarray F)) : result (np.ndarray F) :=
  g ← basic_math.item gy 0; np.sum0 g.

(** [gy·W] in the shape of the input. *)
Definition input_gradient (W : np.ndarray F) (x gy : list (np.ndarray F))
  : result (list (np.ndarray F)) :=
  g ← basic_math.item gy 0; gx ← np.dot g W;
  x0 ← basic_math.item x 0; gx ← np.reshape gx (np.shape x0); Ok [gx].

(** [acc + c], elementwise, in the shape of [acc]. *)
Definition accumulate (acc c : np.ndarray F) : np.ndarray F :=
  np.mk (np.shape acc) (zip_with fadd (np.data acc) (np.data c)).

(** The instance after one [backward] that contributed [cW] and [cb]. *)
Definition accumulated (self : linear.Linear F) (cW cb : np.ndarray F)
  : linear.Linear F :=
  {| linear.W := linear.W self;
     linear.gW := accumulate (linear.gW self) cW;
     linear.b := linear.b self;
     linear.gb := (λ a, accumulate a cb) <$> linear.gb self |}.

(** Both accumulators are there exactly when the bias is. *)
Definition accumulators_mirror_bias (self : linear.Linear F) : Prop :=
  ("gW" ∈ linear.gradient_names self ↔ "b" ∈ linear.parameter_names self)
  ∧ ("gb" ∈ linear.gradient_names self ↔ "b" ∈ linear.parameter_names self).

(** The layer maps [in_size] features to [out_size]. *)
Definition layer_fits (in_size out_size : nat) (self : linear.Linear F)
  : Prop :=
  np.shape (linear.W self) = [out_size; in_size]
  ∧ np.shape (linear.gW self) = [out_size; in_size]
  ∧ match linear.gb self with
    | Some a => np.shape a = [out_size]
    | None => True
    end.

(** The bias, when present, is a vector of [out_size] numbers. *)
Definition bias_fits (out_size : nat) (self : linear.Linear F) : Prop :=
  match linear.b self with
  | Some a => np.shape a = [out_size] ∧ np.wf a
  | None => True
  end.

(** An input of a non-empty batch with [in_size] features in all, and an
    output gradient of one row of [out_size] numbers per input. *)
Definition call_fits (in_size out_size : nat) (x gy : list (np.ndarray F)) : bool :=
  match x, gy with
  | x0 :: _, g :: _ =>
      match np.shape x0 with
      | n :: rest =>
          (0 <? n) && (np.prod rest =? in_size)
          && bool_decide (np.shape g = [n; out_size])
      | [] => false
      end
  | _, _ => false
  end.

(** The attributes [install_variable_arithmetics] assigns. *)
Definition arithmetic_slots : list string :=
  ["__neg__"; "__add__"; "__radd__"; "__sub__"; "__rsub__";
   "__mul__"; "__rmul__"; "__div__"; "__truediv__";
   "__rdiv__"; "__rtruediv__"; "__pow__"; "__rpow__"].

(** What no [backward] may change: the parameters, and the shapes of the
    accumulators. *)
Definition keeps_parameters (self after : linear.Linear F) : Prop :=
  linear.W after = linear.W self
  ∧ linear.b after = linear.b self
  ∧ np.shape (linear.gW after) = np.shape (linear.gW self)
  ∧ np.shape <$> linear.gb after = np.shape <$> linear.gb self.

End vocabulary.

(** ** Values of the instances *)

(** The values the instances run on: integers, a layer of three inputs and
    two outputs, a batch of two. *)
Definition zero_junk : nat → Z := λ _, 0%Z.
Definition seven_junk : nat → Z := λ _, 7%Z.
Definition count_up : Z → Z → nat → Z := λ _ _ i, Z.of_nat i.
Definition exact : Z → Z := λ c, c.

Definition a_layer : linear.Linear Z :=
  {| linear.W := np.mk [2; 3] [0; 1; 2; 3; 4; 5]%Z;
     linear.gW := np.mk [2; 3] [7; 7; 7; 7; 7; 7]%Z;
     linear.b := Some (np.mk [2] [5; 5]%Z);
     linear.gb := Some (np.mk [2] [7; 7]%Z) |}.

Definition a_batch : np.ndarray Z := np.mk [2; 3; 1] [1; 2; 3; 4; 5; 6]%Z.
Definition a_gradient : np.ndarray Z := np.mk [2; 2] [1; 1; 1; 2]%Z.
Definition a_row : np.ndarray Z := np.mk [1; 3] [1; 1; 1]%Z.
Definition a_row_gradient : np.ndarray Z := np.mk [1; 2] [1; 0]%Z.

(** The string ['foo'], which no arithmetic accepts, and the list
    [[10, 20, 30]], which the array library reads as an array and Python's
    own [-] and [/] reject. *)
Definition a_string : object Z :=
  PyObject "'foo'" (Err TypeError) (Err TypeError) (Err TypeError).

Definition a_list : object Z :=
  PyObject "[10, 20, 30]" (Ok (np.mk [3] [10; 20; 30]%Z))
           (Err TypeError) (Err TypeError).

Definition a_vector : basic_math.variable Z :=
  {| basic_math.data := np.mk [3] [1; 2; 3]%Z;
     basic_math.device := CPU;
     basic_math.creator := None |}.

(** * Properties *)

(** ** The array library *)

Section np_facts.
Context {F : Type} `{!Scalar F}.
Implicit Types (d : list F) (s t : list nat).

Lemma bind_Ok {A B} (m : result A) (k : A → result B) (v : A) :
  m = Ok v → (m ≫= k) = k v.
Proof. by intros ->. Qed.

Lemma broadcast_rev_refl s : np.broadcast_rev s s = Some s.
Proof.
  induction s as [|a s IH]; [done|].
  simpl. rewrite Nat.eqb_refl, IH. done.
Qed.

Lemma broadcast_shapes_refl s : np.broadcast_shapes s s = Some s.
Proof.
  unfold np.broadcast_shapes. rewrite broadcast_rev_refl. simpl.
  by rewrite reverse_involutive.
Qed.

Lemma broadcast_rev_nil_r s : np.broadcast_rev s [] = Some s.
Proof. by destruct s. Qed.

Lemma broadcast_shapes_nil_r s : np.broadcast_shapes s [] = Some s.
Proof.
  unfold np.broadcast_shapes. simpl. rewrite broadcast_rev_nil_r. simpl.
  by rewrite reverse_involutive.
Qed.

Lemma broadcast_shapes_nil_l s : np.broadcast_shapes [] s = Some s.
Proof.
  unfold np.broadcast_shapes. simpl. by rewrite reverse_involutive.
Qed.

Lemma broadcast_rev_comm s t : np.broadcast_rev s t = np.broadcast_rev t s.
Proof.
  revert t. induction s as [|a s IH]; intros [|b t]; try done.
  simpl. rewrite (IH t).
  destruct (Nat.eqb_spec a b) as [->|Hab].
  - by rewrite Nat.eqb_refl.
  - destruct (Nat.eqb_spec b a) as [->|_]; [done|].
    destruct (Nat.eqb_spec a 1) as [->|Ha], (Nat.eqb_spec b 1) as [->|Hb];
      done.
Qed.

Lemma broadcast_shapes_comm s t :
  np.broadcast_shapes s t = np.broadcast_shapes t s.
Proof. unfold np.broadcast_shapes. by rewrite broadcast_rev_comm. Qed.

(** Rows *)
Lemma rows_length n k d : length (np.rows n k d) = n.
Proof. unfold np.rows. by rewrite length_reshape, length_replicate. Qed.

Lemma rows_Forall_length n k d :
  length d = n * k → Forall (λ r, length r = k) (np.rows n k d).
Proof.
  unfold np.rows. revert d. induction n as [|n IH]; intros d Hd; simpl.
  - constructor.
  - constructor.
    + rewrite length_take. lia.
    + apply IH. rewrite length_drop. lia.
Qed.

Lemma join_rows n k d : length d = n * k → mjoin (np.rows n k d) = d.
Proof.
  intros Hd. unfold np.rows. apply join_reshape.
  rewrite sum_list_replicate. lia.
Qed.

Lemma rows_join n k (L : list (list F)) :
  length L = n → Forall (λ r, length r = k) L → np.rows n k (mjoin L) = L.
Proof.
  unfold np.rows. revert n. induction L as [|r L IH]; intros n Hn HL.
  - by subst n.
  - destruct n as [|n]; [done|]. inversion HL as [|?? Hr HL']; subst.
    simpl. rewrite take_app_length, drop_app_length.
    f_equal. apply IH; [simpl in Hn; lia | done].
Qed.

Lemma bcast_cons a0 s b0 t d :
  np.bcast (a0 :: s) (b0 :: t) d =
  if a0 =? b0 then mjoin (np.bcast s t <$> np.rows a0 (np.prod s) d)
  else mjoin (replicate b0 (np.bcast s t d)).
Proof. done. Qed.

Lemma bcast_refl s d : length d = np.prod s → np.bcast s s d = d.
Proof.
  revert d. induction s as [|a s IH]; intros d Hd; [done|].
  rewrite bcast_cons, Nat.eqb_refl.
  rewrite <- (join_rows a (np.prod s) d) at 2 by done.
  f_equal. rewrite <- (list_fmap_id (np.rows a (np.prod s) d)) at 2.
  apply Forall_fmap_ext_1. eapply Forall_impl; [by apply rows_Forall_length|].
  intros r Hr. by apply IH.
Qed.

Lemma broadcast_to_refl s d :
  length d = np.prod s → np.broadcast_to s s d = d.
Proof.
  intros. unfold np.broadcast_to. rewrite Nat.sub_diag. simpl.
  by apply bcast_refl.
Qed.

Lemma join_replicate_replicate n m (c : F) :
  mjoin (replicate n (replicate m c)) = replicate (n * m) c.
Proof.
  induction n as [|n IH]; [done|]. simpl. rewrite IH.
  by rewrite <- replicate_add.
Qed.

Lemma prod_ones n : np.prod (replicate n 1) = 1.
Proof. unfold np.prod. induction n; simpl; lia. Qed.

Lemma bcast_scalar t (c : F) :
  np.bcast (replicate (length t) 1) t [c] = replicate (np.prod t) c.
Proof.
  induction t as [|b t IH]; [done|].
  cbn [length replicate]. rewrite bcast_cons.
  destruct (Nat.eqb_spec 1 b) as [<-|Hb].
  - rewrite prod_ones. cbn. rewrite IH, app_nil_r.
    by rewrite Nat.add_0_r.
  - rewrite IH. apply join_replicate_replicate.
Qed.

Lemma broadcast_to_scalar t (c : F) :
  np.broadcast_to [] t [c] = replicate (np.prod t) c.
Proof.
  unfold np.broadcast_to. simpl. rewrite Nat.sub_0_r, app_nil_r.
  apply bcast_scalar.
Qed.


(** Elementwise operators on arrays of one shape, and with a number *)

Lemma binop_same f (a b : np.ndarray F) :
  np.shape b = np.shape a → np.wf a → np.wf b →
  np.binop f a b = Ok (np.mk (np.shape a) (zip_with f (np.data a) (np.data b))).
Proof.
  intros Hs Ha Hb. unfold np.binop. rewrite Hs, broadcast_shapes_refl.
  rewrite !broadcast_to_refl; [done| |done].
  by rewrite <- Hs.
Qed.

Lemma zip_with_replicate_r' {A B C} (f : A → B → C) (l : list A) n c :
  length l = n → zip_with f l (replicate n c) = (λ x, f x c) <$> l.
Proof.
  intros <-. induction l as [|x l IH]; [done|]. simpl. by rewrite IH.
Qed.

Lemma zip_with_replicate_l' {A B C} (f : A → B → C) (k : list B) n c :
  length k = n → zip_with f (replicate n c) k = f c <$> k.
Proof.
  intros <-. induction k as [|x k IH]; [done|]. simpl. by rewrite IH.
Qed.

Lemma binop_scalar_r f (a : np.ndarray F) c :
  np.wf a →
  np.binop f a (np.scalar c)
  = Ok (np.mk (np.shape a) ((λ x, f x c) <$> np.data a)).
Proof.
  intros Ha. unfold np.binop, np.scalar. cbn [np.shape np.data].
  rewrite broadcast_shapes_nil_r.
  rewrite broadcast_to_refl, broadcast_to_scalar by done.
  by rewrite zip_with_replicate_r'.
Qed.

Lemma binop_scalar_l f c (a : np.ndarray F) :
  np.wf a →
  np.binop f (np.scalar c) a = Ok (np.mk (np.shape a) (f c <$> np.data a)).
Proof.
  intros Ha. unfold np.binop, np.scalar. cbn [np.shape np.data].
  rewrite broadcast_shapes_nil_l.
  rewrite broadcast_to_refl, broadcast_to_scalar by done.
  by rewrite zip_with_replicate_l'.
Qed.

Lemma zip_with_comm {A B} (f : A → A → B) (l k : list A) :
  (∀ x y, f x y = f y x) → zip_with f l k = zip_with f k l.
Proof.
  intros Hf. revert k. induction l as [|x l IH]; intros [|y k]; try done.
  simpl. by rewrite Hf, IH.
Qed.

Lemma binop_comm f (a b : np.ndarray F) :
  (∀ x y, f x y = f y x) → np.binop f a b = np.binop f b a.
Proof.
  intros Hf. unfold np.binop. rewrite (broadcast_shapes_comm (np.shape a)).
  destruct (np.broadcast_shapes _ _); [|done].
  by rewrite (zip_with_comm f _ _ Hf).
Qed.

Lemma inplace_same f (a b : np.ndarray F) :
  np.shape b = np.shape a → np.wf b →
  np.inplace f a b
  = Ok (np.mk (np.shape a) (zip_with f (np.data a) (np.data b))).
Proof.
  intros Hs Hb. unfold np.inplace. rewrite Hs, broadcast_shapes_refl.
  rewrite decide_True by done.
  rewrite broadcast_to_refl; [done|]. by rewrite <- Hs.
Qed.

Lemma broadcast_shapes_row n k :
  np.broadcast_shapes [n; k] [k] = Some [n; k].
Proof.
  unfold np.broadcast_shapes. cbn. by rewrite Nat.eqb_refl.
Qed.

Lemma broadcast_to_row n k d :
  length d = k → np.broadcast_to [k] [n; k] d = mjoin (replicate n d).
Proof.
  intros Hd. unfold np.broadcast_to. cbn [length Nat.sub replicate app].
  rewrite bcast_cons.
  assert (Hk : np.bcast [k] [k] d = d).
  { apply bcast_refl. simpl. lia. }
  destruct (Nat.eqb_spec 1 n) as [<-|Hn]; [|by rewrite Hk].
  assert (Hr : np.rows 1 (np.prod [k]) d = [d]).
  { unfold np.rows. cbn. rewrite take_ge by lia. done. }
  rewrite Hr. cbn [fmap list_fmap]. by rewrite Hk.
Qed.

Lemma zip_with_join_replicate {A B C} (f : A → B → C)
    (L : list (list A)) (r : list B) :
  Forall (λ l, length l = length r) L →
  zip_with f (mjoin L) (mjoin (replicate (length L) r))
  = mjoin ((λ l, zip_with f l r) <$> L).
Proof.
  induction 1 as [|l L Hl HL IH]; [done|].
  cbn [length replicate fmap list_fmap mjoin list_join].
  rewrite zip_with_app by done. f_equal. apply IH.
Qed.

Lemma inplace_row f n k d bd :
  length bd = k →
  np.inplace f (np.mk [n; k] d) (np.mk [k] bd)
  = Ok (np.mk [n; k] (zip_with f d (mjoin (replicate n bd)))).
Proof.
  intros Hb. unfold np.inplace. cbn [np.shape np.data].
  rewrite broadcast_shapes_row, decide_True by done.
  by rewrite broadcast_to_row.
Qed.

(** Tabulated lists *)

Lemma tab_ext {A} (g h : nat → A) n :
  (∀ i, i < n → g i = h i) → g <$> seq 0 n = h <$> seq 0 n.
Proof.
  intros Hgh. apply list_fmap_ext. intros i x Hx.
  apply lookup_seq in Hx as [-> ?]. by apply Hgh.
Qed.

Lemma tab_nth {A} (z : A) (l : list A) n :
  length l = n → l = (λ i, nth i l z) <$> seq 0 n.
Proof.
  intros Hl. apply list_eq. intros i.
  rewrite list_lookup_fmap.
  destruct (decide (i < n)) as [Hi|Hi].
  - rewrite lookup_seq_lt by done. simpl.
    destruct (nth_lookup_or_length l i z) as [->|]; [done|lia].
  - rewrite lookup_seq_ge by lia. simpl.
    apply lookup_ge_None. lia.
Qed.

Lemma zip_with_tab {A B C} (f : A → B → C) (g : nat → A) (h : nat → B) n :
  zip_with f (g <$> seq 0 n) (h <$> seq 0 n)
  = (λ i, f (g i) (h i)) <$> seq 0 n.
Proof.
  generalize 0. induction n as [|n IH]; intros j; [done|].
  simpl. by rewrite IH.
Qed.

Lemma nth_tab {A} (z : A) (g : nat → A) n i :
  i < n → nth i (g <$> seq 0 n) z = g i.
Proof.
  intros Hi. rewrite nth_lookup, list_lookup_fmap, lookup_seq_lt by done.
  done.
Qed.


(** Kernels *)

Lemma mapM_Ok {A B} (body : A → result B) (g : A → B) (l : list A) :
  (∀ i, i ∈ l → body i = Ok (g i)) → mapM body l = Ok (g <$> l).
Proof.
  induction l as [|x l IH]; intros Hl; [done|].
  cbn. rewrite Hl by left. cbn.
  rewrite IH; [done|]. intros i Hi. apply Hl. by right.
Qed.

Lemma elementwise_tab {A} n (body : nat → result A) (g : nat → A) :
  (∀ i, i < n → body i = Ok (g i)) →
  basic_math.elementwise n body = Ok (g <$> seq 0 n).
Proof.
  intros Hb. apply mapM_Ok. intros i Hi.
  apply elem_of_seq in Hi. apply Hb. lia.
Qed.

Lemma get_Ok (a : np.ndarray F) i :
  i < length (np.data a) →
  basic_math.get a i = Ok (nth i (np.data a) (flit 0)).
Proof.
  intros Hi. unfold basic_math.get.
  destruct (nth_lookup_or_length (np.data a) i (flit 0)) as [->|]; [done|lia].
Qed.

Lemma filled_full junk (a : np.ndarray F) out :
  length out = np.size a → basic_math.filled junk a out = np.mk (np.shape a) out.
Proof.
  intros Hl. unfold basic_math.filled. f_equal.
  rewrite drop_ge, app_nil_r; [done|].
  unfold np.empty_like. cbn. rewrite length_fmap, length_seq. lia.
Qed.

(** Matrices *)

Lemma column_length j (M : list (list F)) :
  length (np.column j M) = length M.
Proof. unfold np.column. by rewrite length_fmap. Qed.

Lemma columns_length k (M : list (list F)) : length (np.columns k M) = k.
Proof. unfold np.columns. by rewrite length_fmap, length_seq. Qed.

Lemma columns_Forall_length k (M : list (list F)) :
  Forall (λ c, length c = length M) (np.columns k M).
Proof.
  unfold np.columns. apply Forall_fmap, Forall_forall. intros j _.
  apply column_length.
Qed.

Lemma columns_columns n k (M : list (list F)) :
  length M = n → Forall (λ r, length r = k) M →
  np.columns n (np.columns k M) = M.
Proof.
  intros Hn HM. rewrite (tab_nth [] M n Hn) at 2.
  unfold np.columns at 1. apply tab_ext. intros j Hj.
  assert (Hr : length (nth j M []) = k).
  { destruct (nth_lookup_or_length M j []) as [Hl|]; [|lia].
    by eapply (Forall_lookup_1 _ _ _ _ HM Hl). }
  rewrite (tab_nth (flit 0) (nth j M []) k Hr).
  unfold np.column at 1. unfold np.columns.
  rewrite <- list_fmap_compose. apply tab_ext. intros i Hi. cbn.
  unfold np.column. rewrite (nth_lookup _ j), list_lookup_fmap.
  destruct (nth_lookup_or_length M j []) as [->|]; [done|lia].
Qed.

Lemma T_matrix n k d :
  np.T (np.mk [n; k] d)
  = Ok (np.mk [k; n] (mjoin (np.columns k (np.rows n k d)))).
Proof. done. Qed.

Lemma dot_matrix n k m dA dB :
  np.dot (np.mk [n; k] dA) (np.mk [k; m] dB)
  = Ok (np.mk [n; m]
          (mjoin ((λ r, np.inner r <$> np.columns m (np.rows k m dB))
                    <$> np.rows n k dA))).
Proof. unfold np.dot. cbn [np.shape np.data]. by rewrite Nat.eqb_refl. Qed.

(** [x.dot(W.T)]: every row of [x] against every row of [W] *)
Lemma dot_T n k m dX dW :
  length dW = m * k →
  (Wt ← np.T (np.mk [m; k] dW); np.dot (np.mk [n; k] dX) Wt)
  = Ok (np.mk [n; m]
          (mjoin ((λ r, np.inner r <$> np.rows m k dW) <$> np.rows n k dX))).
Proof.
  intros HW. rewrite T_matrix. cbn [mbind result_bind].
  rewrite dot_matrix. do 3 f_equal.
  apply list_fmap_ext. intros _ r _. f_equal.
  rewrite rows_join.
  - apply columns_columns; [apply rows_length | by apply rows_Forall_length].
  - apply columns_length.
  - eapply Forall_impl; [apply columns_Forall_length|].
    intros c Hc. cbn in Hc. by rewrite Hc, rows_length.
Qed.

Lemma dot_wf n m (L : list (list F)) :
  length L = n → Forall (λ r, length r = m) L →
  length (mjoin L) = n * m.
Proof.
  intros <-. induction 1 as [|r L Hr HL IH]; [done|].
  change (mjoin (r :: L)) with (r ++ mjoin L).
  rewrite length_app, IH, Hr. done.
Qed.

End np_facts.

Arguments np.prod : simpl never.
Arguments np.binop : simpl never.
Arguments np.inplace : simpl never.
Arguments np.unop : simpl never.
Arguments np.dot : simpl never.
Arguments np.T : simpl never.
Arguments np.sum0 : simpl never.
Arguments np.reshape : simpl never.
Arguments np.scalar : simpl never.
Arguments basic_math.elementwise : simpl never.
Arguments basic_math.get : simpl never.
Arguments basic_math.filled : simpl never.

Create HintDb methods discriminated.
#[global] Hint Unfold
  basic_math.Neg_forward
  basic_math.Neg_backward
  basic_math.Add_forward
  basic_math.Add_backward
  basic_math.AddConstant_forward
  basic_math.AddConstant_backward
  basic_math.Sub_forward
  basic_math.Sub_backward
  basic_math.SubFromConstant_forward
  basic_math.SubFromConstant_backward
  basic_math.Mul_forward
  basic_math.Mul_backward_cpu
  basic_math.Mul_backward_gpu
  basic_math.MulConstant_forward
  basic_math.MulConstant_backward
  basic_math.Div_forward
  basic_math.Div_backward_cpu
  basic_math.Div_backward_gpu
  basic_math.DivFromConstant_forward
  basic_math.DivFromConstant_backward_cpu
  basic_math.DivFromConstant_backward_gpu
  basic_math.PowVarVar_forward_cpu
  basic_math.PowVarVar_forward_gpu
  basic_math.PowVarVar_backward_cpu
  basic_math.PowVarVar_backward_gpu
  basic_math.PowVarConst_forward
  basic_math.PowVarConst_backward_cpu
  basic_math.PowVarConst_backward_gpu
  basic_math.PowConstVar_forward_cpu
  basic_math.PowConstVar_forward_gpu
  basic_math.PowConstVar_backward_cpu
  basic_math.PowConstVar_backward_gpu
  basic_math.Exp_forward_cpu
  basic_math.Exp_forward_gpu
  basic_math.Exp_backward
  basic_math.Log_forward_cpu
  basic_math.Log_forward_gpu
  basic_math.Log_backward
  basic_math.forward
  basic_math.backward
  basic_math.call
  basic_math.invoke
  : methods.

(** Unfold the methods and run the error monad as far as it goes. *)
Ltac run := cbn; repeat (progress autounfold with methods; cbn).

(** ** Arithmetic with a constant operand *)

Section constants.
Context {F : Type} `{!Scalar F}.
Local Abbreviation ndarray := (np.ndarray F).
Implicit Types (v : constant F) (x y gy : np.ndarray F).

Lemma fits_cmap f v x : fits v x → fits (cmap f v) x.
Proof.
  destruct v as [c|a|s]; cbn; [done| |done].
  intros [Hs Hw]. split; [done|].
  unfold np.wf, np.unop in *. cbn. by rewrite length_fmap.
Qed.

Lemma spread_cmap f v n : spread (cmap f v) n = f <$> spread v n.
Proof. destruct v; cbn; [by rewrite fmap_replicate|done|done]. Qed.

Lemma py_neg_fits v x :
  fits v x → basic_math.py_neg v = Ok (cmap fneg v).
Proof. by destruct v. Qed.

Lemma numpy_log_fits v x :
  fits v x → basic_math.numpy_log v = basic_math.as_array (cmap flog v).
Proof. by destruct v. Qed.

Lemma fits_array v (x : ndarray) :
  np.wf x → fits v x →
  ∃ va, basic_math.as_array v = Ok va
    ∧ (∀ f, np.binop f va x
            = Ok (np.mk (np.shape x)
                    (zip_with f (spread v (np.size x)) (np.data x))))
    ∧ (∀ f, np.binop f x va
            = Ok (np.mk (np.shape x)
                    (zip_with f (np.data x) (spread v (np.size x))))).
Proof.
  intros Hx Hv. destruct v as [c|a|s]; [| |done]; cbn [basic_math.as_array spread].
  - exists (np.scalar c). split; [done|]. split; intros f.
    + rewrite binop_scalar_l by done. by rewrite zip_with_replicate_l'.
    + rewrite binop_scalar_r by done. by rewrite zip_with_replicate_r'.
  - destruct Hv as [Hs Hw]. exists a. split; [done|]. split; intros f.
    + rewrite binop_same by done. by rewrite Hs.
    + by rewrite binop_same.
Qed.

Lemma fits_shape v (x y : ndarray) :
  np.shape y = np.shape x → fits v x → fits v y.
Proof. intros Hs. destruct v; cbn; [done| |done]. by rewrite Hs. Qed.

Lemma wf_zip_with (f : F → F → F) s (l k : list F) :
  length l = np.prod s → length k = np.prod s →
  np.wf (np.mk s (zip_with f l k)).
Proof.
  intros Hl Hk. unfold np.wf. cbn [np.data np.shape].
  rewrite length_zip_with. lia.
Qed.

Lemma wf_fmap (f : F → F) s (l : list F) :
  length l = np.prod s → np.wf (np.mk s (f <$> l)).
Proof.
  intros Hl. unfold np.wf. cbn [np.data np.shape]. by rewrite length_fmap.
Qed.

Lemma spread_length v (x : ndarray) :
  np.wf x → fits v x → length (spread v (np.size x)) = length (np.data x).
Proof.
  intros Hx Hv. destruct v as [c|a|s]; cbn; [|destruct Hv as [Hs Hw]|done].
  - by rewrite length_replicate.
  - unfold np.wf in *. by rewrite Hw, Hs.
Qed.

Lemma active_backend_one (v : basic_math.variable F) :
  basic_math.active_backend [v] = basic_math.device v.
Proof. unfold basic_math.active_backend. cbn. by destruct (basic_math.device v). Qed.


Lemma zip_with_nth {A B C} (f : A → B → C) (l : list A) (k : list B) n z1 z2 :
  length l = n → length k = n →
  zip_with f l k = (λ i, f (nth i l z1) (nth i k z2)) <$> seq 0 n.
Proof.
  intros Hl Hk.
  rewrite (tab_nth z1 l n Hl) at 1. rewrite (tab_nth z2 k n Hk) at 1.
  apply zip_with_tab.
Qed.

Lemma kernel_value_Ok v (x : ndarray) i :
  np.wf x → fits v x → i < np.size x →
  basic_math.kernel_value v i = Ok (nth i (spread v (np.size x)) (flit 0)).
Proof.
  intros Hx Hv Hi. destruct v as [c|a|s]; cbn; [|destruct Hv as [Hs Hw]|done].
  - by rewrite nth_lookup, lookup_replicate_2.
  - apply get_Ok. unfold np.wf, np.size in *. by rewrite Hw, Hs.
Qed.

Lemma as_array_fits v x : fits v x → is_Ok (basic_math.as_array v) = true.
Proof. by destruct v. Qed.

Lemma get_data (x : ndarray) i :
  np.wf x → i < np.size x →
  basic_math.get x i = Ok (nth i (np.data x) (flit 0)).
Proof. intros Hx Hi. apply get_Ok. unfold np.wf, np.size in *. lia. Qed.

Variable junk : nat → F.

End constants.

(** ** Dispatch functions *)

Section dispatch.
Context {F : Type} `{!Scalar F}.
Implicit Types (v : constant F) (x y z gy : np.ndarray F).
Implicit Types (lhs : basic_math.variable F).
Variable junk : nat → F.

(** Claim C4, as amended.  No dispatch function checks the type of its
    operand: whatever is not a graph value is used as a constant.  Given
    an object that is neither a number nor an array, [add], [mul], [rsub],
    [rdiv], [pow] and [rpow] construct the constant form of their
    operation around it, whatever it is.  [sub] and [div] evaluate [-rhs]
    and [1. / rhs] first: where that raises, nothing has been constructed
    and the exception is the one of that evaluation; where it returns,
    they construct [AddConstant] and [MulConstant] around the result.  On
    the CPU an exception about the operand comes only from [forward], and
    it is the one with which the array arithmetic rejects the operand; an
    operand that the array library reads as an array of the shape of [x]
    gives [x + a] and [a * x]. *)
Theorem dispatch_constructs_before_type_error lhs (o : object F) :
  let x := basic_math.data lhs in
  let bad := basic_math.Const (Obj o) in
  let value d := basic_math.data <$> basic_math.outcome d in
  (basic_math.constructed (basic_math.add junk lhs bad)
     = [basic_math.AddConstant (Obj o)]
   ∧ basic_math.constructed (basic_math.mul junk lhs bad)
     = [basic_math.MulConstant (Obj o)]
   ∧ basic_math.constructed (basic_math.rsub junk lhs bad)
     = [basic_math.SubFromConstant (Obj o)]
   ∧ basic_math.constructed (basic_math.rdiv junk lhs bad)
     = [basic_math.DivFromConstant (Obj o)]
   ∧ basic_math.constructed (basic_math.pow junk lhs bad)
     = [basic_math.PowVarConst (Obj o)]
   ∧ basic_math.constructed (basic_math.rpow junk lhs bad)
     = [basic_math.PowConstVar (Obj o) None])
  ∧ ((∀ e, obj_neg o = Err e →
        basic_math.sub junk lhs bad = basic_math.raised e)
     ∧ (∀ c, obj_neg o = Ok c →
          basic_math.sub junk lhs bad
          = basic_math.invoke junk (basic_math.AddConstant c) [lhs]))
  ∧ ((∀ e, obj_rdiv o = Err e →
        basic_math.div junk lhs bad = basic_math.raised e)
     ∧ (∀ c, obj_rdiv o = Ok c →
          basic_math.div junk lhs bad
          = basic_math.invoke junk (basic_math.MulConstant c) [lhs]))
  ∧ (basic_math.device lhs = CPU →
     (∀ e, obj_operand o = Err e →
        basic_math.outcome (basic_math.add junk lhs bad) = Err e
        ∧ basic_math.outcome (basic_math.mul junk lhs bad) = Err e
        ∧ basic_math.outcome (basic_math.rsub junk lhs bad) = Err e
        ∧ basic_math.outcome (basic_math.rdiv junk lhs bad) = Err e
        ∧ basic_math.outcome (basic_math.pow junk lhs bad) = Err e
        ∧ basic_math.outcome (basic_math.rpow junk lhs bad) = Err e)
     ∧ (∀ a, obj_operand o = Ok a →
          np.wf x → np.wf a → np.shape a = np.shape x →
          value (basic_math.add junk lhs bad)
            = Ok (np.mk (np.shape x) (zip_with fadd (np.data x) (np.data a)))
          ∧ value (basic_math.mul junk lhs bad)
            = Ok (np.mk (np.shape x)
                    (zip_with fmul (np.data a) (np.data x))))).
Proof.
  intros x bad value. subst x bad value. cbn beta. split_and!; try done.
  - intros e He. unfold basic_math.sub. cbn. by rewrite He.
  - intros c Hc. unfold basic_math.sub. cbn. by rewrite Hc.
  - intros e He. unfold basic_math.div. cbn. by rewrite He.
  - intros c Hc. unfold basic_math.div. cbn. by rewrite Hc.
  - intros Hd. split.
    + intros e He.
      split_and!; run; rewrite ?active_backend_one, ?Hd; run;
        by rewrite He.
    + intros a Ha Hx Hwa Hs. split.
      * run. rewrite Ha. cbn. unfold np.add.
        by rewrite (binop_same fadd _ a) by done.
      * run. rewrite Ha. cbn. unfold np.multiply.
        rewrite (binop_same fmul a) by (done || congruence).
        cbn. by rewrite Hs.
Qed.

(** Claim C3, at the input where the code departs from it.  [div] with a
    Python number that is zero raises [ZeroDivisionError] while it computes
    [1. / rhs], before any operation is constructed; the same division by
    a graph value or by an array constant, whatever they hold, completes
    with the array library's division. *)
Theorem div_by_zero_number_raises lhs (c : F) z :
  let x := basic_math.data lhs in
  let zv := {| basic_math.data := z; basic_math.device := basic_math.device lhs;
               basic_math.creator := None |} in
  fis_zero c = true → np.wf x → np.shape z = np.shape x → np.wf z →
  basic_math.div junk lhs (basic_math.Const (Num c))
    = basic_math.raised ZeroDivisionError
  ∧ basic_math.data <$>
      basic_math.outcome (basic_math.div junk lhs (basic_math.Var zv))
    = Ok (np.mk (np.shape x) (zip_with fdiv (np.data x) (np.data z)))
  ∧ basic_math.data <$>
      basic_math.outcome (basic_math.div junk lhs (basic_math.Const (Arr z)))
    = Ok (np.mk (np.shape x)
            (zip_with fmul (fdiv (flit 1) <$> np.data z) (np.data x))).
Proof.
  intros x zv Hc Hx Hs Hz. split_and!.
  - unfold basic_math.div, basic_math.py_reciprocal. by rewrite Hc.
  - run. unfold np.divide. rewrite binop_same by done. done.
  - unfold basic_math.div, basic_math.py_reciprocal, np.divide.
    rewrite binop_scalar_l by done. run.
    unfold np.multiply. rewrite binop_same; cbn [np.shape np.data]; try done.
    + by rewrite Hs.
    + by apply wf_fmap.
Qed.

Lemma pow_const_var_gpu_log_raises (c : F) x gy :
  fin_log_domain c = false →
  basic_math.backward junk GPU (basic_math.PowConstVar (Num c) None) [x] [gy]
  = Err ValueError.
Proof. intros Hc. run. unfold basic_math.math_log. by rewrite Hc. Qed.

(** Claim C8.  Where the addition and the multiplication of numbers
    commute: the installer binds [__radd__] to the dispatch function of
    [__add__] and [__rmul__] to that of [__mul__], so [x + c] and [c + x]
    (and [x * c] and [c * x]) are one and the same call, and what that call
    computes is both [c + x] and [x + c] (both [c * x] and [x * c])
    elementwise. *)
Theorem reflected_add_mul_commute (cls : gmap string (basic_math.method F))
    lhs v :
  (∀ a b : F, fadd a b = fadd b a) →
  (∀ a b : F, fmul a b = fmul b a) →
  let x := basic_math.data lhs in
  let cls' := basic_math.install_variable_arithmetics junk cls in
  (cls' !! "__add__" = Some (basic_math.Binary (basic_math.add junk))
   ∧ cls' !! "__radd__" = Some (basic_math.Binary (basic_math.add junk))
   ∧ cls' !! "__mul__" = Some (basic_math.Binary (basic_math.mul junk))
   ∧ cls' !! "__rmul__" = Some (basic_math.Binary (basic_math.mul junk)))
  ∧ (basic_math.binary_op cls' "__radd__" lhs (basic_math.Const v)
       = basic_math.add junk lhs (basic_math.Const v)
     ∧ basic_math.binary_op cls' "__add__" lhs (basic_math.Const v)
       = basic_math.add junk lhs (basic_math.Const v)
     ∧ basic_math.binary_op cls' "__rmul__" lhs (basic_math.Const v)
       = basic_math.mul junk lhs (basic_math.Const v)
     ∧ basic_math.binary_op cls' "__mul__" lhs (basic_math.Const v)
       = basic_math.mul junk lhs (basic_math.Const v))
  ∧ basic_math.AddConstant_forward v [x]
    = (c ← basic_math.as_array v; r ← np.add c x; Ok [r])
  ∧ basic_math.AddConstant_forward v [x]
    = (c ← basic_math.as_array v; r ← np.add x c; Ok [r])
  ∧ basic_math.MulConstant_forward v [x]
    = (c ← basic_math.as_array v; r ← np.multiply c x; Ok [r])
  ∧ basic_math.MulConstant_forward v [x]
    = (c ← basic_math.as_array v; r ← np.multiply x c; Ok [r]).
Proof.
  intros Hadd Hmul x cls'.
  assert (Hl : cls' !! "__add__" = Some (basic_math.Binary (basic_math.add junk))
    ∧ cls' !! "__radd__" = Some (basic_math.Binary (basic_math.add junk))
    ∧ cls' !! "__mul__" = Some (basic_math.Binary (basic_math.mul junk))
    ∧ cls' !! "__rmul__" = Some (basic_math.Binary (basic_math.mul junk))).
  { unfold cls', basic_math.install_variable_arithmetics.
    split_and!; by simplify_map_eq. }
  destruct Hl as (Ha & Hra & Hm & Hrm).
  split; [done|]. split.
  { unfold basic_math.binary_op. by rewrite Ha, Hra, Hm, Hrm. }
  unfold basic_math.AddConstant_forward, basic_math.MulConstant_forward.
  cbn. unfold np.add, np.multiply.
  destruct (basic_math.as_array v) as [c|e]; cbn; [|done].
  split_and!; try done.
  - by rewrite (binop_comm fadd x c).
  - by rewrite (binop_comm fmul c x).
Qed.

End dispatch.

(** ** The two backends of the arithmetic operations *)

Section parity.
Context {F : Type} `{!Scalar F}.
Implicit Types (v : constant F) (x y z gy : np.ndarray F).
Implicit Types (s : list nat) (d : list F).
Variable junk : nat → F.

Lemma binop_mk (f : F → F → F) s d1 d2 :
  length d1 = np.prod s → length d2 = np.prod s →
  np.binop f (np.mk s d1) (np.mk s d2) = Ok (np.mk s (zip_with f d1 d2)).
Proof. intros H1 H2. by rewrite binop_same. Qed.

Lemma nth_zip_with (f : F → F → F) d1 d2 i :
  i < length d1 → i < length d2 →
  nth i (zip_with f d1 d2) (flit 0)
  = f (nth i d1 (flit 0)) (nth i d2 (flit 0)).
Proof.
  intros H1 H2. rewrite !nth_lookup, lookup_zip_with.
  apply lookup_lt_is_Some in H1 as [a ->], H2 as [b ->]. done.
Qed.

Lemma nth_fmap (f : F → F) d i :
  i < length d → nth i (f <$> d) (flit 0) = f (nth i d (flit 0)).
Proof.
  intros H1. rewrite !nth_lookup, list_lookup_fmap.
  apply lookup_lt_is_Some in H1 as [a ->]. done.
Qed.

Lemma tab_eq d n (g : nat → F) :
  length d = n → (∀ i, i < n → nth i d (flit 0) = g i) → d = g <$> seq 0 n.
Proof.
  intros Hd Hg. rewrite (tab_nth (flit 0) d n Hd) at 1. by apply tab_ext.
Qed.

End parity.

(** Side conditions on lengths. *)
Ltac lens :=
  unfold np.wf, np.size in *; cbn [np.shape np.data] in *;
  repeat first [rewrite length_zip_with | rewrite length_fmap
               | rewrite length_replicate | rewrite length_seq];
  first [done | lia].

(** The elements a kernel computes, against the array expression. *)
Ltac pointwise :=
  symmetry; apply tab_eq; [lens|]; intros i Hi;
  repeat first [rewrite nth_zip_with by lens | rewrite nth_fmap by lens];
  try done.

(** Run a kernel whose reads are all in range. *)
Ltac kernel :=
  erewrite elementwise_tab;
  [| intros i Hi; rewrite ?get_Ok by lens; cbn; reflexivity];
  cbn; rewrite ?filled_full by lens; rewrite <- ?list_fmap_compose.

Section parity2.
Context {F : Type} `{!Scalar F}.
Implicit Types (v : constant F) (x y z gy : np.ndarray F).
Implicit Types (s : list nat) (d : list F).
Variable junk : nat → F.


Lemma const_mk v s d0 :
  fits v (np.mk s d0) →
  ∃ va, basic_math.as_array v = Ok va
    ∧ length (spread v (np.prod s)) = np.prod s
    ∧ (∀ (f : F → F → F) d, length d = np.prod s →
         np.binop f va (np.mk s d)
         = Ok (np.mk s (zip_with f (spread v (np.prod s)) d)))
    ∧ (∀ (f : F → F → F) d, length d = np.prod s →
         np.binop f (np.mk s d) va
         = Ok (np.mk s (zip_with f d (spread v (np.prod s)))))
    ∧ (∀ i, i < np.prod s →
         basic_math.kernel_value v i
         = Ok (nth i (spread v (np.prod s)) (flit 0))).
Proof.
  intros Hv.
  assert (Hd : ∀ d, length d = np.prod s →
            np.wf (np.mk s d) ∧ fits v (np.mk s d)).
  { intros d Hd. split; [done|]. by apply (fits_shape v (np.mk s d0)). }
  destruct v as [c|a|t]; [| |done].
  - exists (np.scalar c). split; [done|]. split; [apply length_replicate|].
    split_and!.
    + intros f d Hl. destruct (Hd d Hl) as [Hw Hf].
      destruct (fits_array (Num c) _ Hw Hf) as (va & Hva & Hl' & _).
      injection Hva as <-. apply Hl'.
    + intros f d Hl. destruct (Hd d Hl) as [Hw Hf].
      destruct (fits_array (Num c) _ Hw Hf) as (va & Hva & _ & Hr').
      injection Hva as <-. apply Hr'.
    + intros i Hi. cbn. by rewrite nth_lookup, lookup_replicate_2.
  - destruct Hv as [Hs Ha]. cbn in Hs. exists a. split; [done|].
    split; [by rewrite <- Hs|]. split_and!.
    + intros f d Hl. destruct (Hd d Hl) as [Hw Hf].
      destruct (fits_array (Arr a) _ Hw Hf) as (va & Hva & Hl' & _).
      injection Hva as <-. apply Hl'.
    + intros f d Hl. destruct (Hd d Hl) as [Hw Hf].
      destruct (fits_array (Arr a) _ Hw Hf) as (va & Hva & _ & Hr').
      injection Hva as <-. apply Hr'.
    + intros i Hi. cbn. apply get_Ok. unfold np.wf in Ha. rewrite Ha, Hs. done.
Qed.

Lemma sub_one v x :
  fits v x →
  basic_math.py_sub_one v
  = basic_math.as_array (cmap (λ c, fsub c (flit 1)) v).
Proof.
  destruct v as [c|a|t]; cbn; [| |done]; intros Hv; unfold np.subtract.
  - by rewrite binop_scalar_r.
  - destruct Hv as [_ Ha]. by rewrite binop_scalar_r.
Qed.

Lemma kernel_argument_fits v x :
  fits v x → basic_math.kernel_argument v = Ok ().
Proof. by destruct v. Qed.

Lemma parity_Mul s d0 d1 dg :
  length d0 = np.prod s → length d1 = np.prod s → length dg = np.prod s →
  let x := [np.mk s d0; np.mk s d1] in
  let r := [np.mk s (zip_with fmul dg d1); np.mk s (zip_with fmul dg d0)] in
  basic_math.backward junk CPU basic_math.Mul x [np.mk s dg] = Ok r
  ∧ basic_math.backward junk GPU basic_math.Mul x [np.mk s dg] = Ok r.
Proof.
  intros H0 H1 Hg x r. subst x r. split.
  - run. unfold np.multiply. rewrite !binop_mk by done. done.
  - run. kernel. repeat f_equal; pointwise.
Qed.

Lemma parity_Div s d0 d1 dg :
  length d0 = np.prod s → length d1 = np.prod s → length dg = np.prod s →
  let x := [np.mk s d0; np.mk s d1] in
  let gx0 := zip_with fdiv dg d1 in
  let r := [np.mk s gx0;
            np.mk s (zip_with fdiv (zip_with fmul (fneg <$> gx0) d0) d1)] in
  basic_math.backward junk CPU basic_math.Div x [np.mk s dg] = Ok r
  ∧ basic_math.backward junk GPU basic_math.Div x [np.mk s dg] = Ok r.
Proof.
  intros H0 H1 Hg x gx0 r. subst x gx0 r. split.
  - run. unfold np.divide, np.multiply, np.negative.
    rewrite binop_mk by done. cbn. unfold np.unop. cbn.
    rewrite binop_mk by lens. cbn. rewrite binop_mk by lens. done.
  - run. kernel. repeat f_equal; pointwise.
Qed.

(** [DivFromConstant.backward]: the CPU divides by [x ** 2], the kernel by
    [x * x]. *)
Lemma both_DivFromConstant v s d0 dg :
  length d0 = np.prod s → length dg = np.prod s → fits v (np.mk s d0) →
  let top := zip_with fmul (fneg <$> spread v (np.prod s)) dg in
  basic_math.backward junk CPU (basic_math.DivFromConstant v)
    [np.mk s d0] [np.mk s dg]
  = Ok [np.mk s (zip_with fdiv top ((λ a, fpow a (flit 2)) <$> d0))]
  ∧ basic_math.backward junk GPU (basic_math.DivFromConstant v)
      [np.mk s d0] [np.mk s dg]
    = Ok [np.mk s (zip_with fdiv top ((λ a, fmul a a) <$> d0))].
Proof.
  intros H0 Hg Hv top. subst top.
  destruct (const_mk v s d0 Hv) as (va & Hva & Hc & _ & _ & Hk).
  destruct (const_mk (cmap fneg v) s d0 (fits_cmap fneg v _ Hv))
    as (nv & Hnv & Hnc & Hnl & _ & _).
  rewrite spread_cmap in Hnl. split.
  - run. rewrite (py_neg_fits v _ Hv). cbn. rewrite Hnv. cbn.
    unfold np.multiply, np.power, np.divide.
    rewrite Hnl by done. cbn.
    rewrite binop_scalar_r by done. cbn.
    rewrite binop_mk by lens. done.
  - run. rewrite (kernel_argument_fits v _ Hv). cbn.
    erewrite elementwise_tab.
    2:{ intros i Hi. rewrite !get_Ok by lens. rewrite Hk by lens.
        cbn. reflexivity. }
    cbn. rewrite filled_full by lens.
    repeat f_equal. pointwise.
Qed.

Lemma parity_DivFromConstant v s d0 dg :
  (∀ a : F, fpow a (flit 2) = fmul a a) →
  length d0 = np.prod s → length dg = np.prod s → fits v (np.mk s d0) →
  let c := spread v (np.prod s) in
  let r := [np.mk s (zip_with fdiv (zip_with fmul (fneg <$> c) dg)
                       ((λ a, fpow a (flit 2)) <$> d0))] in
  basic_math.backward junk CPU (basic_math.DivFromConstant v)
    [np.mk s d0] [np.mk s dg] = Ok r
  ∧ basic_math.backward junk GPU (basic_math.DivFromConstant v)
      [np.mk s d0] [np.mk s dg] = Ok r.
Proof.
  intros Hsq H0 Hg Hv c r. subst c r.
  destruct (both_DivFromConstant v s d0 dg H0 Hg Hv) as [Hc Hgpu].
  split; [exact Hc|]. rewrite Hgpu. do 4 f_equal.
  apply list_fmap_ext. intros _ a _. by rewrite Hsq.
Qed.

(** [PowVarVar]: both backends take the power with the array library in
    [forward]; in [backward] the kernel evaluates the expressions of the
    CPU with the device intrinsics. *)
Lemma both_PowVarVar s d0 d1 dg :
  length d0 = np.prod s → length d1 = np.prod s → length dg = np.prod s →
  let x := [np.mk s d0; np.mk s d1] in
  let y := np.mk s (zip_with fpow d0 d1) in
  let gradients (pw : F → F → F) (lg : F → F) :=
    [np.mk s (zip_with fmul
                (zip_with fmul d1
                   (zip_with pw d0 ((λ b, fsub b (flit 1)) <$> d1))) dg);
     np.mk s (zip_with fmul (zip_with fmul (lg <$> d0) (zip_with pw d0 d1))
                dg)] in
  (basic_math.forward junk CPU (basic_math.PowVarVar None) x
     = Ok (basic_math.PowVarVar (Some y), [y])
   ∧ basic_math.forward junk GPU (basic_math.PowVarVar None) x
     = Ok (basic_math.PowVarVar None, [y]))
  ∧ basic_math.backward junk CPU (basic_math.PowVarVar (Some y)) x
      [np.mk s dg] = Ok (gradients fpow flog)
  ∧ basic_math.backward junk GPU (basic_math.PowVarVar None) x
      [np.mk s dg] = Ok (gradients fpowf flogf).
Proof.
  intros H0 H1 Hg x y gradients. subst x y gradients. split_and!.
  - run. unfold np.power. by rewrite binop_mk.
  - run. unfold np.power. by rewrite binop_mk.
  - run. unfold np.subtract, np.power, np.multiply, np.log, np.unop.
    rewrite binop_scalar_r by done. cbn.
    rewrite binop_mk by lens. cbn. rewrite binop_mk by lens. cbn.
    rewrite binop_mk by lens. cbn. rewrite binop_mk by lens. cbn.
    rewrite binop_mk by lens. done.
  - run. kernel. cbn [np.data]. repeat f_equal; pointwise.
Qed.

Lemma both_PowVarConst v s d0 dg :
  length d0 = np.prod s → length dg = np.prod s → fits v (np.mk s d0) →
  let c := spread v (np.prod s) in
  let gradient (pw : F → F → F) :=
    [np.mk s (zip_with fmul
                (zip_with fmul c
                   (zip_with pw d0 ((λ b, fsub b (flit 1)) <$> c))) dg)] in
  basic_math.backward junk CPU (basic_math.PowVarConst v)
    [np.mk s d0] [np.mk s dg] = Ok (gradient fpow)
  ∧ basic_math.backward junk GPU (basic_math.PowVarConst v)
      [np.mk s d0] [np.mk s dg] = Ok (gradient fpowf).
Proof.
  intros H0 Hg Hv c gradient. subst c gradient.
  destruct (const_mk v s d0 Hv) as (va & Hva & Hc & Hl & _ & Hk).
  destruct (const_mk (cmap (λ b, fsub b (flit 1)) v) s d0
              (fits_cmap _ v _ Hv)) as (ev & Hev & Hec & _ & Her & _).
  rewrite spread_cmap in Her.
  pose proof (sub_one v _ Hv) as Hsub. rewrite Hev in Hsub. split.
  - run. rewrite Hsub. cbn.
    unfold np.power, np.multiply.
    rewrite Her by done. cbn. rewrite Hva. cbn. rewrite Hl by lens. cbn.
    rewrite binop_mk by lens. done.
  - run. rewrite (kernel_argument_fits v _ Hv). cbn.
    erewrite elementwise_tab.
    2:{ intros i Hi. rewrite !get_Ok by lens. rewrite Hk by lens.
        cbn. reflexivity. }
    cbn. rewrite filled_full by lens.
    repeat f_equal. pointwise.
Qed.

(** [PowConstVar]: the CPU takes the power and the logarithm with the
    array library; the kernels use the device intrinsics, except for the
    logarithm of a number, which [math.log] takes on the host. *)
Lemma both_PowConstVar v s d0 dg :
  length d0 = np.prod s → length dg = np.prod s → fits v (np.mk s d0) →
  let c := spread v (np.prod s) in
  let y := np.mk s (zip_with fpow c d0) in
  let yf := np.mk s (zip_with fpowf c d0) in
  (basic_math.forward junk CPU (basic_math.PowConstVar v None) [np.mk s d0]
     = Ok (basic_math.PowConstVar v (Some y), [y])
   ∧ basic_math.forward junk GPU (basic_math.PowConstVar v None) [np.mk s d0]
     = Ok (basic_math.PowConstVar v None, [yf]))
  ∧ basic_math.backward junk CPU (basic_math.PowConstVar v (Some y))
      [np.mk s d0] [np.mk s dg]
    = Ok [np.mk s (zip_with fmul (zip_with fmul (flog <$> c) (np.data y))
                     dg)]
  ∧ (log_defined v →
     basic_math.backward junk GPU (basic_math.PowConstVar v None)
       [np.mk s d0] [np.mk s dg]
     = Ok [np.mk s (zip_with fmul
                      (zip_with fmul (device_log v (np.prod s))
                         (np.data yf)) dg)]).
Proof.
  intros H0 Hg Hv c y yf. subst c y yf.
  destruct (const_mk v s d0 Hv) as (va & Hva & Hc & Hl & _ & Hk).
  destruct (const_mk (cmap flog v) s d0 (fits_cmap _ v _ Hv))
    as (lv & Hlv & Hlc & Hll & _ & _).
  rewrite spread_cmap in Hll. split_and!.
  - run. rewrite Hva. cbn. unfold np.power. by rewrite Hl.
  - run. rewrite (kernel_argument_fits v _ Hv). cbn.
    erewrite elementwise_tab.
    2:{ intros i Hi. rewrite !get_Ok by lens. rewrite Hk by lens.
        cbn. reflexivity. }
    cbn. rewrite filled_full by lens.
    repeat f_equal. pointwise.
  - run. rewrite (numpy_log_fits v _ Hv), Hlv. cbn.
    unfold np.multiply. rewrite Hll by lens. cbn.
    rewrite binop_mk by lens. done.
  - intros Hlog. destruct v as [k|a|t]; [| |done].
    + run. unfold basic_math.math_log. cbn in Hlog. rewrite Hlog. cbn.
      kernel. cbn [np.data spread device_log]. repeat f_equal. pointwise.
      rewrite !nth_lookup, !lookup_replicate_2 by lens. done.
    + cbn [spread] in Hc. run. kernel. cbn [np.data spread device_log].
      repeat f_equal. pointwise.
Qed.

Lemma parity_Exp_Log (x : list (np.ndarray F)) (y : option (np.ndarray F)) :
  basic_math.forward junk GPU (basic_math.Exp y) x
  = basic_math.forward junk CPU (basic_math.Exp y) x
  ∧ basic_math.forward junk GPU basic_math.Log x
    = basic_math.forward junk CPU basic_math.Log x.
Proof. done. Qed.

End parity2.

(** ** The reversed dispatch functions *)

Section reversed.
Context {F : Type} `{!Scalar F}.
Implicit Types (v : constant F) (x y gy : np.ndarray F).
Variable junk : nat → F.

(** Claim C5, with the input where the code departs from it.  For a graph
    value [lhs] holding the array [x] and a constant [v] (a number, or an
    array of the shape of [x]), the reversed dispatch functions construct
    the swapped operation and compute it with the constant on the left:
    [rsub] gives [c - x] and [rdiv] gives [c / x] on either backend, [rpow]
    gives [c ** x], taken by the array library on the CPU and by the
    device intrinsic [__powf] on the accelerator.  [backward] returns [-gy]
    for [rsub] on either backend; for [rdiv] it returns [-c * gy / x ** 2]
    on the CPU and [-c * gy / (x * x)] on the accelerator; for [rpow] it
    returns [log c * y * gy], on the CPU from the output [y] that
    [forward] cached, on the accelerator with [__powf(c, x)] for [y] and,
    for a number [c], the logarithm that [math.log] takes on the host.
    That is where the code departs from the claim: for a number [k] that
    [math.log] rejects the accelerator raises [ValueError], where the CPU
    returns [log k * y * gy]. *)
Theorem reversed_dispatch_swaps_operands
    (lhs : basic_math.variable F) v gy (k : F) :
  let x := basic_math.data lhs in
  let n := np.size x in
  let c := spread v n in
  let arr d := np.mk (np.shape x) d in
  let value d := basic_math.data <$> basic_math.outcome d in
  let power :=
    match basic_math.device lhs with CPU => fpow | GPU => fpowf end in
  np.wf x → fits v x → np.shape gy = np.shape x → np.wf gy →
  (basic_math.constructed (basic_math.rsub junk lhs (basic_math.Const v))
     = [basic_math.SubFromConstant v]
   ∧ basic_math.constructed (basic_math.rdiv junk lhs (basic_math.Const v))
     = [basic_math.DivFromConstant v]
   ∧ basic_math.constructed (basic_math.rpow junk lhs (basic_math.Const v))
     = [basic_math.PowConstVar v None])
  ∧ (value (basic_math.rsub junk lhs (basic_math.Const v))
       = Ok (arr (zip_with fsub c (np.data x)))
     ∧ value (basic_math.rdiv junk lhs (basic_math.Const v))
       = Ok (arr (zip_with fdiv c (np.data x)))
     ∧ value (basic_math.rpow junk lhs (basic_math.Const v))
       = Ok (arr (zip_with power c (np.data x))))
  ∧ (∀ bk, basic_math.backward junk bk (basic_math.SubFromConstant v)
             [x] [gy]
           = Ok [arr (fneg <$> np.data gy)])
  ∧ (let top := zip_with fmul (fneg <$> c) (np.data gy) in
     basic_math.backward junk CPU (basic_math.DivFromConstant v) [x] [gy]
       = Ok [arr (zip_with fdiv top
                    ((λ a, fpow a (flit 2)) <$> np.data x))]
     ∧ basic_math.backward junk GPU (basic_math.DivFromConstant v) [x] [gy]
       = Ok [arr (zip_with fdiv top ((λ a, fmul a a) <$> np.data x))])
  ∧ (let y := arr (zip_with fpow c (np.data x)) in
     basic_math.forward junk CPU (basic_math.PowConstVar v None) [x]
       = Ok (basic_math.PowConstVar v (Some y), [y])
     ∧ basic_math.backward junk CPU (basic_math.PowConstVar v (Some y))
         [x] [gy]
       = Ok [arr (zip_with fmul (zip_with fmul (flog <$> c) (np.data y))
                    (np.data gy))])
  ∧ (log_defined v →
     basic_math.backward junk GPU (basic_math.PowConstVar v None) [x] [gy]
     = Ok [arr (zip_with fmul
                  (zip_with fmul (device_log v n)
                     (zip_with fpowf c (np.data x)))
                  (np.data gy))])
  ∧ (fin_log_domain k = false →
     let yk := arr (zip_with fpow (replicate n k) (np.data x)) in
     basic_math.backward junk CPU (basic_math.PowConstVar (Num k) (Some yk))
       [x] [gy]
     = Ok [arr (zip_with fmul
                  (zip_with fmul (flog <$> replicate n k) (np.data yk))
                  (np.data gy))]
     ∧ basic_math.backward junk GPU (basic_math.PowConstVar (Num k) None)
         [x] [gy]
       = Err ValueError).
Proof.
  intros x n c arr value power Hx Hv Hgs Hgw.
  subst x n c arr value power. cbn beta.
  destruct lhs as [[s d0] dev cr]. destruct gy as [sg dg].
  cbn [basic_math.data basic_math.device np.shape np.data] in *.
  subst sg. change (np.size (np.mk s d0)) with (np.prod s).
  assert (H0 : length d0 = np.prod s) by exact Hx.
  assert (Hg : length dg = np.prod s) by exact Hgw.
  destruct (fits_array v _ Hx Hv) as (va & Hva & Hl & Hr).
  cbn [np.shape np.data] in Hl, Hr.
  change (np.size (np.mk s d0)) with (np.prod s) in Hl, Hr.
  destruct (both_DivFromConstant junk v s d0 dg H0 Hg Hv) as [Hdc Hdg].
  destruct (both_PowConstVar junk v s d0 dg H0 Hg Hv)
    as ([Hfc Hfg] & Hbc & Hbg).
  split_and!.
  - done.
  - done.
  - done.
  - run. rewrite Hva. cbn. unfold np.subtract. by rewrite Hl.
  - run. rewrite Hva. cbn. unfold np.divide. by rewrite Hl.
  - unfold basic_math.rpow, basic_math.invoke, basic_math.call.
    cbn [basic_math.outcome]. rewrite active_backend_one.
    cbn [basic_math.device fmap list_fmap basic_math.data].
    destruct dev.
    + by rewrite Hfc.
    + by rewrite Hfg.
  - intros bk. by destruct bk.
  - exact Hdc.
  - exact Hdg.
  - exact Hfc.
  - exact Hbc.
  - exact Hbg.
  - intros Hk.
    destruct (both_PowConstVar junk (Num k) s d0 dg H0 Hg I)
      as (_ & Hkc & _).
    split; [exact Hkc|].
    by apply pow_const_var_gpu_log_raises.
Qed.

End reversed.

(** ** The affine layer *)

Arguments linear._as_mat : simpl never.

Section affine.
Context {F : Type} `{!Scalar F}.
Implicit Types (x y z gy : np.ndarray F) (self : linear.Linear F).
Implicit Types (s rest : list nat) (d : list F).

Lemma prod_cons n s : np.prod (n :: s) = n * np.prod s.
Proof. done. Qed.

Lemma prod_two n k : np.prod [n; k] = n * k.
Proof. unfold np.prod. cbn. lia. Qed.

Lemma as_mat_Ok n rest d :
  n ≠ 0 →
  linear._as_mat (np.mk (n :: rest) d) = Ok (np.mk [n; np.prod rest] d).
Proof.
  intros Hn. unfold linear._as_mat. cbn [np.shape].
  destruct (Nat.eqb_spec n 0) as [|_]; [done|].
  unfold np.reshape, np.size. cbn [np.shape np.data].
  assert (Hdiv : np.prod (n :: rest) / n = np.prod rest).
  { rewrite prod_cons, (Nat.mul_comm n). by apply Nat.div_mul. }
  rewrite Hdiv.
  assert (Heq : np.prod [n; np.prod rest] = np.prod (n :: rest)).
  { by rewrite prod_two, prod_cons. }
  by rewrite Heq, Nat.eqb_refl.
Qed.

Lemma forward_cpu_value self n rest in_size out_size dW d :
  linear.W self = np.mk [out_size; in_size] dW →
  length dW = out_size * in_size →
  bias_fits out_size self →
  n ≠ 0 → np.prod rest = in_size →
  linear.forward_cpu self [np.mk (n :: rest) d]
  = Ok [np.mk [n; out_size]
          (mjoin (affine_rows n in_size out_size dW
                    (np.data <$> linear.b self) d))].
Proof.
  intros HW HdW Hb Hn Hin. unfold linear.forward_cpu. cbn.
  rewrite as_mat_Ok by done. cbn. rewrite HW, Hin.
  pose proof (dot_T n in_size out_size d dW HdW) as Hdot.
  destruct (np.T _) as [Wt|]; [|done]. cbn in Hdot |- *. rewrite Hdot. cbn.
  unfold bias_fits in Hb. unfold affine_rows.
  destruct (linear.b self) as [[sb bd]|]; cbn; [|done].
  destruct Hb as [Hsb Hwb]. cbn in Hsb. subst sb.
  unfold np.wf in Hwb. cbn in Hwb. rewrite prod_cons in Hwb.
  unfold np.iadd. rewrite inplace_row by (unfold np.prod in Hwb; cbn in Hwb; lia).
  cbn. do 3 f_equal.
  set (L := (λ r, np.inner r <$> np.rows out_size in_size dW)
              <$> np.rows n in_size d).
  assert (HL : length L = n) by (unfold L; by rewrite length_fmap, rows_length).
  rewrite <- HL at 1. rewrite zip_with_join_replicate.
  - unfold L. by rewrite <- list_fmap_compose.
  - unfold L. apply Forall_fmap, Forall_forall. intros r _. cbn.
    rewrite length_fmap, rows_length.
    unfold np.prod in Hwb. cbn in Hwb. lia.
Qed.


Lemma call_fits_inv in_size out_size (x gy : list (np.ndarray F)) :
  call_fits in_size out_size x gy = true →
  ∃ n rest d (dg : list F) (xs gs : list (np.ndarray F)),
    x = np.mk (n :: rest) d :: xs ∧ gy = np.mk [n; out_size] dg :: gs
    ∧ n ≠ 0 ∧ np.prod rest = in_size.
Proof.
  unfold call_fits. destruct x as [|[sx d] x']; [done|].
  destruct gy as [|[sg dg] gy']; [done|]. cbn [np.shape].
  destruct sx as [|n rest]; [done|].
  intros H. apply andb_prop in H as [H Hg]. apply andb_prop in H as [Hn Hr].
  apply bool_decide_eq_true in Hg. subst sg.
  apply Nat.ltb_lt in Hn. apply Nat.eqb_eq in Hr.
  exists n, rest, d, dg, x', gy'. split_and!; [done|done|lia|done].
Qed.

Lemma dot_data_length n k m dA dB r :
  np.dot (np.mk [n; k] dA) (np.mk [k; m] dB) = Ok r →
  np.shape r = [n; m] ∧ length (np.data r) = n * m.
Proof.
  rewrite dot_matrix. intros [= <-]. split; [done|]. cbn [np.data].
  apply dot_wf.
  - by rewrite length_fmap, rows_length.
  - apply Forall_fmap, Forall_forall. intros l _. cbn.
    by rewrite length_fmap, columns_length.
Qed.

Lemma backward_cpu_spec self in_size out_size (x gy : list (np.ndarray F)) :
  layer_fits in_size out_size self →
  call_fits in_size out_size x gy = true →
  ∃ cW cb gx,
    gW_contribution x gy = Ok cW
    ∧ gb_contribution gy = Ok cb
    ∧ input_gradient (linear.W self) x gy = Ok [gx]
    ∧ (np.shape cW = [out_size; in_size] ∧ np.shape cb = [out_size])
    ∧ np.shape <$> x !! 0 = Some (np.shape gx)
    ∧ linear.backward_cpu self x gy = (accumulated self cW cb, Ok [gx]).
Proof.
  intros (HW & HgW & Hgb) Hcall.
  destruct (call_fits_inv _ _ _ _ Hcall)
    as (n & rest & d & dg & x' & gy' & -> & -> & Hn & Hin).
  destruct self as [[sW dW] accW bias accb]. cbn in HW, HgW, Hgb. subst sW.
  (* the three array expressions *)
  assert (HcW : ∃ cW, gW_contribution (np.mk (n :: rest) d :: x')
                        (np.mk [n; out_size] dg :: gy') = Ok cW
                ∧ np.shape cW = [out_size; in_size] ∧ np.wf cW).
  { unfold gW_contribution. cbn. rewrite as_mat_Ok by done. cbn.
    rewrite T_matrix. cbn. rewrite Hin.
    destruct (np.dot _ _) as [cW|] eqn:Hdot; [|by rewrite dot_matrix in Hdot].
    apply dot_data_length in Hdot as [Hs Hl].
    exists cW. split_and!; [done|done|].
    unfold np.wf. by rewrite Hs, prod_two. }
  destruct HcW as (cW & HcW & HsW & HwW).
  assert (Hcb : ∃ cb, gb_contribution (np.mk [n; out_size] dg :: gy') = Ok cb
                ∧ np.shape cb = [out_size] ∧ np.wf cb).
  { unfold gb_contribution. cbn. eexists. split; [done|]. split; [done|].
    unfold np.wf. cbn. rewrite length_fmap, columns_length.
    unfold np.prod. cbn. lia. }
  destruct Hcb as (cb & Hcb & Hsb & Hwb).
  assert (Hgx : ∃ gx, input_gradient (np.mk [out_size; in_size] dW)
                        (np.mk (n :: rest) d :: x')
                        (np.mk [n; out_size] dg :: gy') = Ok [gx]
                ∧ np.shape gx = n :: rest).
  { unfold input_gradient. cbn. rewrite dot_matrix. cbn.
    unfold np.reshape, np.size. cbn [np.shape np.data].
    rewrite prod_cons, prod_two, Hin, Nat.eqb_refl. cbn. by eexists. }
  destruct Hgx as (gx & Hgx & Hsx).
  exists cW, cb, gx. split_and!; try done.
  { cbn. by rewrite Hsx. }
  unfold linear.backward_cpu, accumulated.
  unfold gW_contribution in HcW. cbn [linear.gW linear.W linear.gb linear.b].
  cbn in HcW |- *.
  destruct (linear._as_mat _) as [X|]; [|done]. cbn in HcW |- *.
  destruct (np.T _) as [gT|]; [|done]. cbn in HcW |- *.
  rewrite HcW. cbn. unfold np.iadd.
  rewrite inplace_same by (done || congruence). 
  unfold linear.set_gW. cbn.
  unfold gb_contribution in Hcb. cbn in Hcb.
  unfold input_gradient in Hgx. cbn in Hgx.
  destruct accb as [acc|]; cbn.
  - rewrite Hcb. cbn. rewrite inplace_same by (done || congruence).
    unfold linear.set_gb. cbn. by rewrite Hgx.
  - by rewrite Hgx.
Qed.


Lemma layer_fits_accumulated in_size out_size self (cW cb : np.ndarray F) :
  layer_fits in_size out_size self →
  layer_fits in_size out_size (accumulated self cW cb).
Proof.
  intros (HW & HgW & Hgb). split_and!; [done|done|].
  cbn. by destruct (linear.gb self).
Qed.

Lemma zip_with_assoc (f : F → F → F) (a c1 c2 : list F) :
  (∀ u v w, f (f u v) w = f u (f v w)) →
  zip_with f (zip_with f a c1) c2 = zip_with f a (zip_with f c1 c2).
Proof.
  intros Hf. revert c1 c2.
  induction a as [|u a IH]; intros [|v c1] [|w c2]; try done.
  cbn. by rewrite Hf, IH.
Qed.

Lemma accumulate_assoc (a c1 c2 : np.ndarray F) :
  (∀ u v w : F, fadd (fadd u v) w = fadd u (fadd v w)) →
  accumulate (accumulate a c1) c2 = accumulate a (accumulate c1 c2).
Proof.
  intros Hf. unfold accumulate. cbn. by rewrite zip_with_assoc.
Qed.

(** Claim C1.  Two [backward] calls in a row on one layer, with inputs and
    output gradients that fit it: both return, [gW] ends as its value
    before plus the first contribution [gy1ᵀ·X1] plus the second, [gb]
    (when there is a bias) likewise with the column sums of [gy], [W] and
    [b] are untouched, and each call returns [gy·W] in the shape of its
    input, which is the same whatever the accumulators of the instance
    hold.  Where the addition of numbers is associative, the two
    contributions may be summed first. *)
Theorem backward_twice_accumulates self in_size out_size
    (x1 gy1 x2 gy2 : list (np.ndarray F)) :
  layer_fits in_size out_size self →
  call_fits in_size out_size x1 gy1 = true →
  call_fits in_size out_size x2 gy2 = true →
  ∃ cW1 cb1 gx1 cW2 cb2 gx2 self1 self2,
    (gW_contribution x1 gy1 = Ok cW1 ∧ gb_contribution gy1 = Ok cb1
     ∧ gW_contribution x2 gy2 = Ok cW2 ∧ gb_contribution gy2 = Ok cb2)
    ∧ (linear.backward_cpu self x1 gy1 = (self1, Ok [gx1])
       ∧ linear.backward_cpu self1 x2 gy2 = (self2, Ok [gx2]))
    ∧ (linear.gW self2 = accumulate (accumulate (linear.gW self) cW1) cW2
       ∧ linear.gb self2
         = (λ a, accumulate (accumulate a cb1) cb2) <$> linear.gb self
       ∧ linear.W self2 = linear.W self ∧ linear.b self2 = linear.b self)
    ∧ (input_gradient (linear.W self) x1 gy1 = Ok [gx1]
       ∧ input_gradient (linear.W self) x2 gy2 = Ok [gx2]
       ∧ np.shape <$> x1 !! 0 = Some (np.shape gx1)
       ∧ np.shape <$> x2 !! 0 = Some (np.shape gx2))
    ∧ (∀ other, linear.W other = linear.W self →
         layer_fits in_size out_size other →
         (linear.backward_cpu other x1 gy1).2 = Ok [gx1]
         ∧ (linear.backward_cpu other x2 gy2).2 = Ok [gx2])
    ∧ ((∀ u v w : F, fadd (fadd u v) w = fadd u (fadd v w)) →
       linear.gW self2 = accumulate (linear.gW self) (accumulate cW1 cW2)
       ∧ linear.gb self2
         = (λ a, accumulate a (accumulate cb1 cb2)) <$> linear.gb self).
Proof.
  intros Hfit H1 H2.
  destruct (backward_cpu_spec self _ _ x1 gy1 Hfit H1)
    as (cW1 & cb1 & gx1 & HW1 & Hb1 & Hg1 & _ & Hs1 & Hstep1).
  pose proof (layer_fits_accumulated _ _ self cW1 cb1 Hfit) as Hfit1.
  destruct (backward_cpu_spec _ _ _ x2 gy2 Hfit1 H2)
    as (cW2 & cb2 & gx2 & HW2 & Hb2 & Hg2 & _ & Hs2 & Hstep2).
  change (linear.W (accumulated self cW1 cb1)) with (linear.W self) in Hg2.
  exists cW1, cb1, gx1, cW2, cb2, gx2.
  exists (accumulated self cW1 cb1),
         (accumulated (accumulated self cW1 cb1) cW2 cb2).
  split_and!; try done.
  - cbn. by destruct (linear.gb self).
  - intros other HWo Hfo.
    destruct (backward_cpu_spec other _ _ x1 gy1 Hfo H1)
      as (? & ? & gx1' & _ & _ & Hg1' & _ & _ & ->).
    destruct (backward_cpu_spec other _ _ x2 gy2 Hfo H2)
      as (? & ? & gx2' & _ & _ & Hg2' & _ & _ & ->).
    rewrite HWo in Hg1', Hg2'. cbn. split; congruence.
  - intros Hassoc. cbn. rewrite accumulate_assoc by done. split; [done|].
    destruct (linear.gb self); cbn; [|done].
    by rewrite accumulate_assoc.
Qed.

Lemma backward_all_spec self in_size out_size
    (calls : list (list (np.ndarray F) * list (np.ndarray F))) :
  layer_fits in_size out_size self →
  forallb (λ c, call_fits in_size out_size c.1 c.2) calls = true →
  ∃ cWs cbs self' gxs,
    Forall2 (λ c cW, gW_contribution c.1 c.2 = Ok cW) calls cWs
    ∧ Forall2 (λ c cb, gb_contribution c.2 = Ok cb) calls cbs
    ∧ Forall2 (λ c gx, input_gradient (linear.W self) c.1 c.2 = Ok gx)
        calls gxs
    ∧ linear.backward_all self calls = (self', Ok gxs)
    ∧ linear.gW self' = foldl accumulate (linear.gW self) cWs
    ∧ linear.gb self' = (λ a, foldl accumulate a cbs) <$> linear.gb self
    ∧ linear.W self' = linear.W self ∧ linear.b self' = linear.b self.
Proof.
  revert self. induction calls as [|[x gy] calls IH]; intros self Hfit Hall.
  - exists [], [], self, []. split_and!; try done; try constructor.
    cbn. by destruct (linear.gb self).
  - cbn in Hall. apply andb_prop in Hall as [Hc Hall].
    destruct (backward_cpu_spec self _ _ x gy Hfit Hc)
      as (cW & cb & gx & HW & Hb & Hg & _ & _ & Hstep).
    pose proof (layer_fits_accumulated _ _ self cW cb Hfit) as Hfit1.
    destruct (IH _ Hfit1 Hall)
      as (cWs & cbs & self' & gxs & HWs & Hbs & Hgs & Hrun & HgW & Hgb
          & HW' & Hb').
    exists (cW :: cWs), (cb :: cbs), self', ([gx] :: gxs).
    split_and!; try (by constructor).
    + cbn. rewrite Hstep, Hrun. done.
    + by rewrite HgW.
    + rewrite Hgb. cbn. by destruct (linear.gb self).
    + by rewrite HW'.
    + by rewrite Hb'.
Qed.


Lemma affine_rows_shape n in_size out_size dW (bias : option (list F)) d :
  match bias with Some bd => length bd = out_size | None => True end →
  let rs := affine_rows n in_size out_size dW bias d in
  length rs = n ∧ Forall (λ r, length r = out_size) rs
  ∧ np.rows n out_size (mjoin rs) = rs.
Proof.
  intros Hb rs.
  assert (Hn : length rs = n).
  { unfold rs, affine_rows. by rewrite length_fmap, rows_length. }
  assert (Hr : Forall (λ r, length r = out_size) rs).
  { unfold rs, affine_rows. apply Forall_fmap, Forall_forall. intros xr _.
    cbn. destruct bias as [bd|].
    - rewrite length_zip_with, length_fmap, rows_length. lia.
    - by rewrite length_fmap, rows_length. }
  split_and!; [done|done|]. by apply rows_join.
Qed.


Lemma nth_join_replicate n (bd : list F) i (z : F) :
  i < n * length bd →
  nth i (mjoin (replicate n bd)) z = nth (i mod length bd) bd z.
Proof.
  revert i. induction n as [|n IH]; intros i Hi; [lia|].
  cbn [replicate]. change (mjoin (bd :: replicate n bd))
    with (bd ++ mjoin (replicate n bd)).
  assert (Hpos : length bd ≠ 0) by lia.
  destruct (decide (i < length bd)) as [Hlt|Hge].
  - rewrite !nth_lookup, lookup_app_l by done.
    by rewrite Nat.mod_small.
  - rewrite nth_lookup, lookup_app_r by lia. rewrite <- nth_lookup.
    rewrite IH by lia. f_equal.
    replace i with ((i - length bd) + 1 * length bd) at 2 by lia.
    by rewrite Nat.Div0.mod_add.
Qed.

Lemma forward_gpu_value self n rest in_size out_size dW d :
  linear.W self = np.mk [out_size; in_size] dW →
  length dW = out_size * in_size →
  bias_fits out_size self →
  n ≠ 0 → np.prod rest = in_size →
  linear.forward_gpu self [np.mk (n :: rest) d]
  = linear.forward_cpu self [np.mk (n :: rest) d].
Proof.
  intros HW HdW Hb Hn Hin. unfold linear.forward_gpu, linear.forward_cpu.
  cbn. rewrite as_mat_Ok by done. cbn. rewrite HW, Hin.
  rewrite T_matrix. cbn.
  destruct (np.dot _ _) as [[sy dy]|] eqn:Hdot; [|done]. cbn.
  apply dot_data_length in Hdot as [Hsy Hly]. cbn in Hsy, Hly. subst sy.
  unfold bias_fits in Hb.
  destruct (linear.b self) as [[sb bd]|]; [|done].
  destruct Hb as [Hsb Hwb]. cbn in Hsb. subst sb.
  assert (Hbd : length bd = out_size).
  { unfold np.wf, np.prod in Hwb. cbn in Hwb. lia. }
  unfold np.iadd. rewrite inplace_row by done. cbn.
  erewrite elementwise_tab.
  2:{ intros i Hi. unfold np.size in Hi. cbn in Hi. rewrite prod_two in Hi.
      unfold np.size. cbn [np.shape]. rewrite prod_cons.
      assert (np.prod [] = 1) as -> by done. rewrite Nat.mul_1_r.
      assert (Hm : i mod out_size < length bd).
      { rewrite Hbd. apply Nat.mod_upper_bound. lia. }
      rewrite !get_Ok by (cbn [np.data]; lia). reflexivity. }
  cbn. do 3 f_equal. unfold np.size. cbn [np.shape]. rewrite prod_two.
  symmetry. apply tab_eq.
  - rewrite length_zip_with.
    rewrite (dot_wf n out_size (replicate n bd));
      [lia|by rewrite length_replicate|by apply Forall_replicate].
  - intros i Hi. rewrite !nth_lookup, lookup_zip_with, <- !nth_lookup.
    destruct (nth_lookup_or_length dy i (flit 0)) as [Hy|]; [|lia].
    rewrite Hy. cbn.
    destruct (nth_lookup_or_length (mjoin (replicate n bd)) i (flit 0))
      as [Hj|Hj].
    + rewrite Hj. cbn. rewrite nth_join_replicate by (rewrite Hbd; lia).
      by rewrite Hbd.
    + rewrite (dot_wf n out_size (replicate n bd)) in Hj;
        [lia|by rewrite length_replicate|by apply Forall_replicate].
Qed.

Lemma backward_gpu_eq self in_size out_size (x gy : list (np.ndarray F)) :
  layer_fits in_size out_size self →
  call_fits in_size out_size x gy = true →
  linear.backward_gpu self x gy = linear.backward_cpu self x gy.
Proof.
  intros (HW & HgW & Hgb) Hcall.
  destruct (call_fits_inv _ _ _ _ Hcall)
    as (n & rest & d & dg & x' & gy' & -> & -> & Hn & Hin).
  destruct self as [[sW dW] accW bias accb]. cbn in HW, HgW, Hgb. subst sW.
  unfold linear.backward_gpu, linear.backward_cpu.
  cbn. rewrite as_mat_Ok by done. cbn. rewrite T_matrix. cbn. rewrite Hin.
  destruct (np.dot _ _) as [cW|] eqn:Hdot; [|done]. cbn.
  apply dot_data_length in Hdot as [Hs Hl].
  rewrite decide_True by congruence.
  destruct (np.iadd accW cW) as [acc'|]; [|done]. cbn.
  assert (Hlast : ∀ W,
    W = np.mk [out_size; in_size] dW →
    (np.dot (np.mk [n; out_size] dg) W
       ≫= λ gx : np.ndarray F,
            if decide (np.shape gx = [n; in_size])
            then np.reshape gx (n :: rest) ≫= λ gx0, Ok [gx0]
            else Err ValueError)
    = (np.dot (np.mk [n; out_size] dg) W
         ≫= λ gx : np.ndarray F,
              np.reshape gx (n :: rest) ≫= λ gx0, Ok [gx0])).
  { intros W ->. rewrite dot_matrix. cbn. by rewrite decide_True. }
  unfold linear.set_gW, linear.set_gb. cbn.
  destruct accb as [acc|]; cbn.
  - destruct (np.sum0 _) as [sb|]; [|done]. cbn.
    destruct (np.iadd acc sb) as [acc2|]; [|done]. cbn.
    f_equal. by apply Hlast.
  - f_equal. by apply Hlast.
Qed.



End affine.

Section construction.
Context {F : Type} `{!Scalar F}.
Implicit Types (self : linear.Linear F) (d : list F).
Variable float32 : F → F.
Variable normal : F → F → nat → F.
Variables junkW junkb : nat → F.

Local Abbreviation init := (linear.__init__ float32 normal junkW junkb).

Lemma init_Ok in_size out_size (wscale bias : F) (nobias : bool) :
  in_size ≠ 0 →
  ∃ dW, length dW = out_size * in_size
    ∧ init in_size out_size wscale bias nobias
      = Ok {| linear.W := np.mk [out_size; in_size] dW;
              linear.gW :=
                np.mk [out_size; in_size]
                  (junkW <$> seq 0 (np.prod [out_size; in_size]));
              linear.b :=
                if nobias then None
                else Some (np.mk [out_size]
                             (replicate out_size (float32 bias)));
              linear.gb :=
                if nobias then None
                else Some (np.mk [out_size]
                             (junkb <$> seq 0 (np.prod [out_size]))) |}.
Proof.
  intros Hin. unfold linear.__init__.
  destruct (Nat.eqb_spec in_size 0) as [|_]; [done|].
  eexists. split; [|by destruct nobias].
  by rewrite length_fmap, length_seq.
Qed.

(** Claim C6.  [forward] on a batch of [n > 0] rows of [in_size] numbers
    returns an array of shape [(n, out_size)] whose rows are [x_row·Wᵀ],
    plus [b] when there is a bias.  In particular a layer built with
    [in_size = 3], [out_size = 2] and a bias maps a [(4, 3)] batch to a
    [(4, 2)] array whose rows are [x_row·Wᵀ + [bias, bias]], the bias as
    rounded to single precision. *)
Theorem forward_is_affine self (n in_size out_size : nat) dW d :
  linear.W self = np.mk [out_size; in_size] dW →
  length dW = out_size * in_size →
  bias_fits out_size self →
  n ≠ 0 →
  (let rs := affine_rows n in_size out_size dW
               (np.data <$> linear.b self) d in
   linear.forward_cpu self [np.mk [n; in_size] d]
   = Ok [np.mk [n; out_size] (mjoin rs)]
   ∧ length rs = n
   ∧ np.rows n out_size (mjoin rs) = rs)
  ∧ ∀ (wscale bias : F) (d43 : list F),
      ∃ self0 dW0,
        init 3 2 wscale bias false = Ok self0
        ∧ linear.W self0 = np.mk [2; 3] dW0
        ∧ linear.b self0 = Some (np.mk [2] [float32 bias; float32 bias])
        ∧ linear.forward_cpu self0 [np.mk [4; 3] d43]
          = Ok [np.mk [4; 2]
                  (mjoin ((λ xr, zip_with fadd
                                   (np.inner xr <$> np.rows 2 3 dW0)
                                   [float32 bias; float32 bias])
                            <$> np.rows 4 3 d43))].
Proof.
  intros HW HdW Hb Hn. split.
  - intros rs. 
    assert (Hbl : match np.data <$> linear.b self with
                  | Some bd => length bd = out_size | None => True end).
    { unfold bias_fits in Hb. destruct (linear.b self) as [a|]; [|done].
      destruct Hb as [Hs Hw]. unfold np.wf in Hw. rewrite Hs in Hw.
      cbn. rewrite Hw. unfold np.prod. cbn. lia. }
    destruct (affine_rows_shape n in_size out_size dW _ d Hbl)
      as (Hlen & _ & Hrows).
    split_and!; [|done|done].
    apply forward_cpu_value; try done. unfold np.prod. cbn. lia.
  - intros wscale bias d43.
    destruct (init_Ok 3 2 wscale bias false) as (dW0 & HdW0 & Hinit); [done|].
    eexists _, dW0. split; [exact Hinit|]. split; [done|]. split; [done|].
    rewrite (forward_cpu_value _ 4 [3] 3 2 dW0 d43); try done.
Qed.

(** Claim C2, as amended.  Every layer has [W] and [gW], of one shape,
    with or without a bias; [gb] is there exactly when [b] is, and [b] is
    left out exactly when the layer is built with [nobias]. *)
Theorem gb_mirrors_bias_gW_always in_size out_size (wscale bias : F)
    (nobias : bool) self :
  init in_size out_size wscale bias nobias = Ok self →
  ("W" ∈ linear.parameter_names self ∧ "gW" ∈ linear.gradient_names self
   ∧ np.shape (linear.gW self) = np.shape (linear.W self))
  ∧ ("gb" ∈ linear.gradient_names self ↔ "b" ∈ linear.parameter_names self)
  ∧ (linear.gb self = None ↔ linear.b self = None)
  ∧ (linear.b self = None ↔ nobias = true)
  ∧ (nobias = true →
     linear.parameter_names self = ["W"]
     ∧ linear.gradient_names self = ["gW"])
  ∧ (nobias = false →
     linear.parameter_names self = ["W"; "b"]
     ∧ linear.gradient_names self = ["gW"; "gb"]).
Proof.
  unfold linear.__init__. destruct (in_size =? 0); [done|].
  destruct nobias; intros [= <-];
    unfold linear.parameter_names, linear.gradient_names; cbn;
    split_and!; try done; try set_solver.
Qed.

(** Claim C10.  A new layer's [gW] and [gb] hold whatever the allocator
    left there ([junkW], [junkb]); nothing sets them to zero.  After any
    run of [backward] calls that fit the layer, each accumulator is those
    initial contents with the contributions of the calls added one after
    the other. *)
Theorem accumulators_start_uninitialised_and_only_grow
    in_size out_size (wscale bias : F) (nobias : bool)
    (calls : list (list (np.ndarray F) * list (np.ndarray F))) :
  in_size ≠ 0 →
  forallb (λ c, call_fits in_size out_size c.1 c.2) calls = true →
  ∃ self cWs cbs self' gxs,
    init in_size out_size wscale bias nobias = Ok self
    ∧ (linear.gW self
         = np.mk [out_size; in_size]
             (junkW <$> seq 0 (np.prod [out_size; in_size]))
       ∧ linear.gb self
         = if nobias then None
           else Some (np.mk [out_size]
                        (junkb <$> seq 0 (np.prod [out_size]))))
    ∧ (Forall2 (λ c cW, gW_contribution c.1 c.2 = Ok cW) calls cWs
       ∧ Forall2 (λ c cb, gb_contribution c.2 = Ok cb) calls cbs)
    ∧ linear.backward_all self calls = (self', Ok gxs)
    ∧ linear.gW self' = foldl accumulate (linear.gW self) cWs
    ∧ linear.gb self' = (λ a, foldl accumulate a cbs) <$> linear.gb self.
Proof.
  intros Hin Hcalls.
  destruct (init_Ok in_size out_size wscale bias nobias Hin)
    as (dW & HdW & Hinit).
  set (self := {| linear.W := np.mk [out_size; in_size] dW |}) in Hinit.
  assert (Hfit : layer_fits in_size out_size self).
  { split_and!; [done|done|]. cbn. by destruct nobias. }
  destruct (backward_all_spec self _ _ calls Hfit Hcalls)
    as (cWs & cbs & self' & gxs & HWs & Hbs & _ & Hrun & HgW & Hgb & _).
  exists self, cWs, cbs, self', gxs. split_and!; done.
Qed.

End construction.

(** ** The two backends, operation by operation *)

Section backends.
Context {F : Type} `{!Scalar F}.
Implicit Types (v : constant F) (self : linear.Linear F).
Implicit Types (s : list nat) (d : list F).
Variable junk : nat → F.

(** Property X1.
    The two implementations, operation by operation, for arrays of one
    shape, a constant that is a number or an array of that shape, and a
    layer with fitting input.  The CPU and the accelerator versions of
    [Mul.backward], [Div.backward], [Exp.forward], [Log.forward] and of
    the layer's [forward] and [backward] return the same arrays, and so do
    those of [DivFromConstant.backward] where [x ** 2] is [x * x].  For the
    power operations the kernels evaluate the expressions of the CPU with
    the device intrinsics [__powf] and [__logf] in the place of the array
    library's power and logarithm. *)
Theorem backend_parity s d0 d1 dg v self in_size out_size dW
    (xl gl : np.ndarray F) :
  let x1 := [np.mk s d0] in
  let x2 := [np.mk s d0; np.mk s d1] in
  let gy := [np.mk s dg] in
  let c := spread v (np.prod s) in
  length d0 = np.prod s → length d1 = np.prod s → length dg = np.prod s →
  fits v (np.mk s d0) →
  linear.W self = np.mk [out_size; in_size] dW →
  length dW = out_size * in_size →
  bias_fits out_size self → layer_fits in_size out_size self →
  call_fits in_size out_size [xl] [gl] = true →
  (∃ r, basic_math.backward junk CPU basic_math.Mul x2 gy = Ok r
        ∧ basic_math.backward junk GPU basic_math.Mul x2 gy = Ok r)
  ∧ (∃ r, basic_math.backward junk CPU basic_math.Div x2 gy = Ok r
          ∧ basic_math.backward junk GPU basic_math.Div x2 gy = Ok r)
  ∧ ((∀ a : F, fpow a (flit 2) = fmul a a) →
     ∃ r, basic_math.backward junk CPU (basic_math.DivFromConstant v) x1 gy
            = Ok r
          ∧ basic_math.backward junk GPU (basic_math.DivFromConstant v) x1 gy
            = Ok r)
  ∧ (∀ (x : list (np.ndarray F)) (y : option (np.ndarray F)),
       basic_math.forward junk GPU (basic_math.Exp y) x
       = basic_math.forward junk CPU (basic_math.Exp y) x
       ∧ basic_math.forward junk GPU basic_math.Log x
         = basic_math.forward junk CPU basic_math.Log x)
  ∧ (∃ r, linear.forward_cpu self [xl] = Ok r
          ∧ linear.forward_gpu self [xl] = Ok r)
  ∧ (∃ self' r, linear.backward_cpu self [xl] [gl] = (self', Ok r)
                ∧ linear.backward_gpu self [xl] [gl] = (self', Ok r))
  ∧ (let y := np.mk s (zip_with fpow d0 d1) in
     let gradients (pw : F → F → F) (lg : F → F) :=
       [np.mk s (zip_with fmul
                   (zip_with fmul d1
                      (zip_with pw d0 ((λ b, fsub b (flit 1)) <$> d1))) dg);
        np.mk s (zip_with fmul
                   (zip_with fmul (lg <$> d0) (zip_with pw d0 d1)) dg)] in
     (basic_math.forward junk CPU (basic_math.PowVarVar None) x2
        = Ok (basic_math.PowVarVar (Some y), [y])
      ∧ basic_math.forward junk GPU (basic_math.PowVarVar None) x2
        = Ok (basic_math.PowVarVar None, [y]))
     ∧ basic_math.backward junk CPU (basic_math.PowVarVar (Some y)) x2 gy
       = Ok (gradients fpow flog)
     ∧ basic_math.backward junk GPU (basic_math.PowVarVar None) x2 gy
       = Ok (gradients fpowf flogf))
  ∧ (let gradient (pw : F → F → F) :=
       [np.mk s (zip_with fmul
                   (zip_with fmul c
                      (zip_with pw d0 ((λ b, fsub b (flit 1)) <$> c))) dg)] in
     basic_math.backward junk CPU (basic_math.PowVarConst v) x1 gy
       = Ok (gradient fpow)
     ∧ basic_math.backward junk GPU (basic_math.PowVarConst v) x1 gy
       = Ok (gradient fpowf))
  ∧ (let output (pw : F → F → F) := np.mk s (zip_with pw c d0) in
     basic_math.forward junk CPU (basic_math.PowConstVar v None) x1
       = Ok (basic_math.PowConstVar v (Some (output fpow)), [output fpow])
     ∧ basic_math.forward junk GPU (basic_math.PowConstVar v None) x1
       = Ok (basic_math.PowConstVar v None, [output fpowf])).
Proof.
  intros x1 x2 gy c H0 H1 Hg Hv HW HdW Hb Hfit Hcall.
  split_and!.
  - destruct (parity_Mul junk s d0 d1 dg H0 H1 Hg) as [Hc Hgpu]. eauto.
  - destruct (parity_Div junk s d0 d1 dg H0 H1 Hg) as [Hc Hgpu]. eauto.
  - intros Hsq.
    destruct (parity_DivFromConstant junk v s d0 dg Hsq H0 Hg Hv)
      as [Hc Hgpu]. eauto.
  - intros x y. apply parity_Exp_Log.
  - destruct (call_fits_inv _ _ _ _ Hcall)
      as (n & rest & d & dgl & xs & gs & [= -> <-] & _ & Hn & Hin).
    eexists. split.
    + by apply (forward_cpu_value self n rest in_size out_size dW d).
    + rewrite (forward_gpu_value self n rest in_size out_size dW d) by done.
      by apply (forward_cpu_value self n rest in_size out_size dW d).
  - destruct (backward_cpu_spec self _ _ [xl] [gl] Hfit Hcall)
      as (cW & cb & gx & _ & _ & _ & _ & _ & Hstep).
    exists (accumulated self cW cb), [gx]. split; [done|].
    by rewrite (backward_gpu_eq self _ _ [xl] [gl] Hfit Hcall).
  - exact (both_PowVarVar junk s d0 d1 dg H0 H1 Hg).
  - exact (both_PowVarConst junk v s d0 dg H0 Hg Hv).
  - destruct (both_PowConstVar junk v s d0 dg H0 Hg Hv) as (Hf & _).
    exact Hf.
Qed.


(** Claim C9, at the input where the code departs from it.  For
    [PowConstVar] with a number outside the domain of [math.log] (zero or
    negative), the CPU [backward] returns [numpy.log(c) * y * gy] while
    the accelerator [backward] raises [ValueError]. *)
Theorem pow_const_var_backends_diverge (c : F) s d0 dg :
  fin_log_domain c = false →
  length d0 = np.prod s → length dg = np.prod s →
  let x := [np.mk s d0] in
  let gy := [np.mk s dg] in
  let y := np.mk s (zip_with fpow (replicate (np.prod s) c) d0) in
  basic_math.forward junk CPU (basic_math.PowConstVar (Num c) None) x
    = Ok (basic_math.PowConstVar (Num c) (Some y), [y])
  ∧ basic_math.backward junk CPU (basic_math.PowConstVar (Num c) (Some y))
      x gy
    = Ok [np.mk s (zip_with fmul
                     (zip_with fmul (replicate (np.prod s) (flog c))
                        (np.data y)) dg)]
  ∧ basic_math.backward junk GPU (basic_math.PowConstVar (Num c) None) x gy
    = Err ValueError.
Proof.
  intros Hc H0 Hg x gy y. subst x gy y. split_and!.
  - run. unfold np.power. rewrite binop_scalar_l by done. cbn.
    by rewrite zip_with_replicate_l'.
  - run. unfold np.multiply, np.log, np.unop.
    change (np.mk (np.shape (np.scalar c)) (flog <$> np.data (np.scalar c)))
      with (np.scalar (flog c)).
    rewrite binop_scalar_l by lens. cbn.
    rewrite binop_mk by lens.
    rewrite (zip_with_replicate_l' fmul _ (np.prod s) (flog c)) by lens.
    done.
  - by apply pow_const_var_gpu_log_raises.
Qed.

End backends.

(** ** Dispatch, operand by operand *)

Section operands.
Context {F : Type} `{!Scalar F}.
Implicit Types (v : constant F) (x y z gy : np.ndarray F).
Implicit Types (lhs rhs : basic_math.variable F).
Variable junk : nat → F.

(** Property X2.
    With a graph value on the right, every dispatch function builds the
    two-operand operation; the reversed ones pass the operands in the
    opposite order.  For operands of one shape the result holds
    [lhs ∘ rhs], respectively [rhs ∘ lhs], elementwise. *)
Theorem dispatch_on_graph_values lhs rhs :
  let a := basic_math.data lhs in
  let b := basic_math.data rhs in
  let r := basic_math.Var rhs in
  let value d := basic_math.data <$> basic_math.outcome d in
  let both (f : F → F → F) := Ok (np.mk (np.shape a)
                                     (zip_with f (np.data a) (np.data b))) in
  let swapped (f : F → F → F) := Ok (np.mk (np.shape a)
                                       (zip_with f (np.data b) (np.data a))) in
  np.wf a → np.wf b → np.shape b = np.shape a →
  (basic_math.constructed (basic_math.add junk lhs r) = [basic_math.Add]
   ∧ value (basic_math.add junk lhs r) = both fadd)
  ∧ (basic_math.constructed (basic_math.sub junk lhs r) = [basic_math.Sub]
     ∧ value (basic_math.sub junk lhs r) = both fsub)
  ∧ (basic_math.constructed (basic_math.rsub junk lhs r) = [basic_math.Sub]
     ∧ value (basic_math.rsub junk lhs r) = swapped fsub)
  ∧ (basic_math.constructed (basic_math.mul junk lhs r) = [basic_math.Mul]
     ∧ value (basic_math.mul junk lhs r) = both fmul)
  ∧ (basic_math.constructed (basic_math.div junk lhs r) = [basic_math.Div]
     ∧ value (basic_math.div junk lhs r) = both fdiv)
  ∧ (basic_math.constructed (basic_math.rdiv junk lhs r) = [basic_math.Div]
     ∧ value (basic_math.rdiv junk lhs r) = swapped fdiv)
  ∧ (basic_math.constructed (basic_math.pow junk lhs r)
       = [basic_math.PowVarVar None]
     ∧ value (basic_math.pow junk lhs r) = both fpow)
  ∧ (basic_math.constructed (basic_math.rpow junk lhs r)
       = [basic_math.PowVarVar None]
     ∧ value (basic_math.rpow junk lhs r) = swapped fpow).
Proof.
  intros a b r value both swapped Ha Hb Hs.
  assert (Hab : ∀ f, np.binop f a b = both f).
  { intros f. by rewrite binop_same. }
  assert (Hba : ∀ f, np.binop f b a = swapped f).
  { intros f. rewrite binop_same by done. by rewrite Hs. }
  subst both swapped value r a b. cbn beta in *.
  split_and!; try done; run;
    unfold np.add, np.subtract, np.multiply, np.divide, np.power;
    rewrite ?Hab, ?Hba; try done.
  - by destruct (basic_math.active_backend _).
  - by destruct (basic_math.active_backend _).
Qed.


(** Property X3.
    With a constant on the right: [add] and [pow] keep it, [sub] stores its
    negation in an [AddConstant], so that [x - c] is computed as
    [x + (-c)], and [div] by a non-zero number stores its reciprocal in a
    [MulConstant], so that [x / c] is computed as [(1 / c) * x].  The
    backward steps are [gy], [gy], [c * gy], [(1 / c) * gy] and
    [c * x ** (c - 1) * gy]. *)
Theorem dispatch_on_constants lhs v (k : F) gy :
  let x := basic_math.data lhs in
  let c := spread v (np.size x) in
  let value d := basic_math.data <$> basic_math.outcome d in
  let arr d := Ok (np.mk (np.shape x) d) in
  np.wf x → fits v x → fis_zero k = false →
  np.shape gy = np.shape x → np.wf gy →
  (basic_math.constructed (basic_math.add junk lhs (basic_math.Const v))
     = [basic_math.AddConstant v]
   ∧ value (basic_math.add junk lhs (basic_math.Const v))
     = arr (zip_with fadd (np.data x) c)
   ∧ basic_math.backward junk (basic_math.device lhs)
       (basic_math.AddConstant v) [x] [gy] = Ok [gy])
  ∧ (basic_math.constructed (basic_math.sub junk lhs (basic_math.Const v))
       = [basic_math.AddConstant (cmap fneg v)]
     ∧ value (basic_math.sub junk lhs (basic_math.Const v))
       = arr (zip_with fadd (np.data x) (fneg <$> c)))
  ∧ (basic_math.constructed (basic_math.mul junk lhs (basic_math.Const v))
       = [basic_math.MulConstant v]
     ∧ value (basic_math.mul junk lhs (basic_math.Const v))
       = arr (zip_with fmul c (np.data x))
     ∧ basic_math.backward junk (basic_math.device lhs)
         (basic_math.MulConstant v) [x] [gy]
       = Ok [np.mk (np.shape x) (zip_with fmul c (np.data gy))])
  ∧ (basic_math.constructed
       (basic_math.div junk lhs (basic_math.Const (Num k)))
       = [basic_math.MulConstant (Num (fdiv (flit 1) k))]
     ∧ value (basic_math.div junk lhs (basic_math.Const (Num k)))
       = arr (fmul (fdiv (flit 1) k) <$> np.data x)
     ∧ basic_math.backward junk (basic_math.device lhs)
         (basic_math.MulConstant (Num (fdiv (flit 1) k))) [x] [gy]
       = Ok [np.mk (np.shape x) (fmul (fdiv (flit 1) k) <$> np.data gy)])
  ∧ (basic_math.constructed (basic_math.pow junk lhs (basic_math.Const v))
       = [basic_math.PowVarConst v]
     ∧ value (basic_math.pow junk lhs (basic_math.Const v))
       = arr (zip_with fpow (np.data x) c)
     ∧ basic_math.backward junk CPU (basic_math.PowVarConst v) [x] [gy]
       = Ok [np.mk (np.shape x)
               (zip_with fmul
                  (zip_with fmul c
                     (zip_with fpow (np.data x)
                        ((λ e, fsub e (flit 1)) <$> c)))
                  (np.data gy))]).
Proof.
  intros x c value arr Hx Hv Hk Hgs Hgw.
  destruct (fits_array v x Hx Hv) as (va & Hva & Hl & Hr).
  assert (Hvg : fits v gy) by by apply (fits_shape v x).
  destruct (fits_array v gy Hgw Hvg) as (va' & Hva' & Hlg & _).
  rewrite Hva in Hva'. injection Hva' as <-.
  destruct (fits_array (cmap fneg v) x Hx (fits_cmap fneg v x Hv))
    as (nv & Hnv & _ & Hnr).
  rewrite spread_cmap in Hnr.
  assert (Hsz : np.size gy = np.size x) by (unfold np.size; by rewrite Hgs).
  subst value arr c. cbn beta.
  split_and!.
  - done.
  - run. rewrite Hva. cbn. unfold np.add. by rewrite Hr.
  - by destruct (basic_math.device lhs).
  - unfold basic_math.sub. by rewrite (py_neg_fits v x Hv).
  - unfold basic_math.sub. rewrite (py_neg_fits v x Hv).
    run. rewrite Hnv. cbn. unfold np.add. by rewrite Hnr.
  - done.
  - run. rewrite Hva. cbn. unfold np.multiply. by rewrite Hl.
  - destruct (basic_math.device lhs); run; rewrite Hva; cbn;
      unfold np.multiply; by rewrite Hlg, Hgs, Hsz.
  - unfold basic_math.div, basic_math.py_reciprocal. by rewrite Hk.
  - unfold basic_math.div, basic_math.py_reciprocal. rewrite Hk.
    run. unfold np.multiply. by rewrite binop_scalar_l.
  - destruct (basic_math.device lhs); run; unfold np.multiply;
      rewrite binop_scalar_l by done; by rewrite Hgs.
  - done.
  - run. rewrite Hva. cbn. unfold np.power. by rewrite Hr.
  - destruct x as [s d0], gy as [sg dg]. cbn in Hgs. subst sg.
    destruct (both_PowVarConst junk v s d0 dg Hx Hgw Hv) as [Hcpu _].
    exact Hcpu.
Qed.

(** Property X4.
    Which [forward] keeps its output in [self.y], and which [backward]
    needs it.  [Exp] keeps it on both backends and [backward] multiplies it
    with [gy].  [PowVarVar] and [PowConstVar] keep it in [forward_cpu],
    replacing what was kept before, and [backward_cpu] then returns;
    their [forward_gpu] leaves the instance as it was.  A [backward] that
    needs an output nobody kept raises [AttributeError]; the accelerator
    version of [PowVarVar.backward] does not need it. *)
Theorem forward_output_cache (bk : backend) s (d0 d1 dg : list F) v
    (stale : option (np.ndarray F)) :
  let x0 := np.mk s d0 in
  let x1 := np.mk s d1 in
  let gy := np.mk s dg in
  let c := spread v (np.prod s) in
  length d0 = np.prod s → length d1 = np.prod s → length dg = np.prod s →
  fits v x0 →
  (basic_math.forward junk bk (basic_math.Exp stale) [x0]
     = Ok (basic_math.Exp (Some (np.exp x0)), [np.exp x0])
   ∧ basic_math.backward junk bk (basic_math.Exp (Some (np.exp x0)))
       [x0] [gy]
     = Ok [np.mk s (zip_with fmul (fexp <$> d0) dg)]
   ∧ basic_math.backward junk bk (basic_math.Exp None) [x0] [gy]
     = Err AttributeError)
  ∧ (let y := np.mk s (zip_with fpow d0 d1) in
     basic_math.forward junk CPU (basic_math.PowVarVar stale) [x0; x1]
       = Ok (basic_math.PowVarVar (Some y), [y])
     ∧ basic_math.forward junk GPU (basic_math.PowVarVar stale) [x0; x1]
       = Ok (basic_math.PowVarVar stale, [y])
     ∧ is_Ok (basic_math.backward junk CPU (basic_math.PowVarVar (Some y))
                [x0; x1] [gy]) = true
     ∧ basic_math.backward junk CPU (basic_math.PowVarVar None)
         [x0; x1] [gy] = Err AttributeError
     ∧ is_Ok (basic_math.backward junk GPU (basic_math.PowVarVar None)
                [x0; x1] [gy]) = true)
  ∧ (let y := np.mk s (zip_with fpow c d0) in
     basic_math.forward junk CPU (basic_math.PowConstVar v stale) [x0]
       = Ok (basic_math.PowConstVar v (Some y), [y])
     ∧ basic_math.forward junk GPU (basic_math.PowConstVar v stale) [x0]
       = Ok (basic_math.PowConstVar v stale,
             [np.mk s (zip_with fpowf c d0)])
     ∧ is_Ok (basic_math.backward junk CPU
                (basic_math.PowConstVar v (Some y)) [x0] [gy]) = true
     ∧ basic_math.backward junk CPU (basic_math.PowConstVar v None)
         [x0] [gy] = Err AttributeError).
Proof.
  intros x0 x1 gy c H0 H1 Hg Hv. subst x0 x1 gy c.
  destruct (both_PowVarVar junk s d0 d1 dg H0 H1 Hg)
    as ([Hfc _] & Hbc & Hbg).
  destruct (both_PowConstVar junk v s d0 dg H0 Hg Hv)
    as ([Hkc _] & Hkb & _).
  destruct (const_mk v s d0 Hv) as (va & Hva & Hc & Hl & _ & Hkv).
  destruct (const_mk (cmap flog v) s d0 (fits_cmap _ v _ Hv))
    as (lv & Hlv & _).
  cbn zeta. split_and!.
  - by destruct bk.
  - destruct bk; run; unfold np.multiply, np.exp, np.unop; cbn;
      by rewrite binop_mk by lens.
  - by destruct bk.
  - unfold basic_math.forward in Hfc |- *. exact Hfc.
  - run. unfold np.power. by rewrite binop_mk.
  - by rewrite Hbc.
  - run. unfold np.subtract, np.power, np.multiply.
    rewrite binop_scalar_r by done. cbn.
    rewrite binop_mk by lens. cbn. rewrite binop_mk by lens. cbn.
    by rewrite binop_mk by lens.
  - by rewrite Hbg.
  - unfold basic_math.forward in Hkc |- *. exact Hkc.
  - run. rewrite (kernel_argument_fits v _ Hv). cbn.
    erewrite elementwise_tab.
    2:{ intros i Hi. rewrite !get_Ok by lens. rewrite Hkv by lens.
        cbn. reflexivity. }
    cbn. rewrite filled_full by lens.
    repeat f_equal. pointwise.
  - by rewrite Hkb.
  - run. by rewrite (numpy_log_fits v _ Hv), Hlv.
Qed.


Lemma binop_row (f : F → F → F) (n k : nat) (d0 d1 : list F) :
  length d0 = n * k → length d1 = k →
  np.binop f (np.mk [n; k] d0) (np.mk [k] d1)
  = Ok (np.mk [n; k] (zip_with f d0 (mjoin (replicate n d1)))).
Proof.
  intros H0 H1. unfold np.binop. cbn [np.shape np.data].
  rewrite broadcast_shapes_row.
  rewrite broadcast_to_refl by (by rewrite prod_two).
  by rewrite broadcast_to_row.
Qed.

(** Property X5.
    The two-operand operations neither check nor adjust shapes.  On the
    CPU, operands whose shapes do not broadcast make [forward] raise the
    array library's [ValueError]; operands whose shapes do broadcast give
    an output of the broadcast shape. *)
Theorem binary_forward_follows_broadcasting
    (f : basic_math.function F) (stale : option (np.ndarray F)) x0 x1 :
  f ∈ [basic_math.Add; basic_math.Sub; basic_math.Mul; basic_math.Div;
       basic_math.PowVarVar stale] →
  match np.broadcast_shapes (np.shape x0) (np.shape x1) with
  | None => basic_math.forward junk CPU f [x0; x1] = Err ValueError
  | Some s =>
      ∃ f' y, basic_math.forward junk CPU f [x0; x1] = Ok (f', [y])
              ∧ np.shape y = s
  end.
Proof.
  intros Hf. rewrite !elem_of_cons in Hf.
  destruct Hf as [->|[->|[->|[->|[->|Hf]]]]];
    [| | | | |by apply elem_of_nil in Hf];
    run;
    unfold np.add, np.subtract, np.multiply, np.divide, np.power, np.binop;
    destruct (np.broadcast_shapes _ _); cbn; eauto.
Qed.

(** Property X6.
    Broadcasting is not undone on the way back.  When a vector of [k]
    numbers is added to, or multiplied with, every row of an [n] by [k]
    array, [backward] returns for the vector a gradient of shape [(n, k)]:
    [gy] itself for [Add], [gy * x0] for [Mul]; it is not summed over the
    rows. *)
Theorem backward_keeps_broadcast_shape (n k : nat) (d0 d1 dg : list F) :
  let x0 := np.mk [n; k] d0 in
  let x1 := np.mk [k] d1 in
  let gy := np.mk [n; k] dg in
  length d0 = n * k → length d1 = k → length dg = n * k →
  (basic_math.Add_forward [x0; x1]
     = Ok [np.mk [n; k] (zip_with fadd d0 (mjoin (replicate n d1)))]
   ∧ basic_math.Add_backward [x0; x1] [gy] = Ok [gy; gy])
  ∧ (basic_math.Mul_forward [x0; x1]
       = Ok [np.mk [n; k] (zip_with fmul d0 (mjoin (replicate n d1)))]
     ∧ basic_math.Mul_backward_cpu [x0; x1] [gy]
       = Ok [np.mk [n; k] (zip_with fmul dg (mjoin (replicate n d1)));
             np.mk [n; k] (zip_with fmul dg d0)])
  ∧ np.shape gy ≠ np.shape x1.
Proof.
  intros x0 x1 gy H0 H1 Hg. subst x0 x1 gy. split_and!.
  - run. unfold np.add. by rewrite binop_row.
  - done.
  - run. unfold np.multiply. by rewrite binop_row.
  - run. unfold np.multiply. rewrite binop_row by done. cbn.
    by rewrite binop_mk by (by rewrite prod_two).
  - done.
Qed.

(** Property X7.
    On the CPU [Add] and [Mul] treat their operands alike, whatever
    their shapes: with the operands exchanged, [backward] returns the same
    two gradients in the opposite order, errors included, and where the
    arithmetic of numbers commutes [forward] returns the same array. *)
Theorem add_mul_symmetric x0 x1 gy :
  (∀ a b : F, fadd a b = fadd b a) →
  (∀ a b : F, fmul a b = fmul b a) →
  (basic_math.Add_forward [x1; x0] = basic_math.Add_forward [x0; x1]
   ∧ basic_math.Mul_forward [x1; x0] = basic_math.Mul_forward [x0; x1])
  ∧ basic_math.Add_backward [x1; x0] [gy]
    = reverse <$> basic_math.Add_backward [x0; x1] [gy]
  ∧ basic_math.Mul_backward_cpu [x1; x0] [gy]
    = reverse <$> basic_math.Mul_backward_cpu [x0; x1] [gy].
Proof.
  intros Hadd Hmul. split_and!.
  - run. unfold np.add. by rewrite (binop_comm fadd x1 x0).
  - run. unfold np.multiply. by rewrite (binop_comm fmul x1 x0).
  - done.
  - run. unfold np.multiply, np.binop.
    destruct (np.broadcast_shapes (np.shape gy) (np.shape x0)),
             (np.broadcast_shapes (np.shape gy) (np.shape x1)); done.
Qed.

Lemma install_frame (cls : gmap string (basic_math.method F)) name :
  name ∉ arithmetic_slots →
  basic_math.install_variable_arithmetics junk cls !! name = cls !! name.
Proof.
  unfold arithmetic_slots. rewrite !not_elem_of_cons. intros Hn.
  unfold basic_math.install_variable_arithmetics.
  repeat (rewrite lookup_insert_ne by (intros <-; tauto)). done.
Qed.

Lemma install_slot (cls other : gmap string (basic_math.method F)) name :
  name ∈ arithmetic_slots →
  is_Some (basic_math.install_variable_arithmetics junk cls !! name)
  ∧ basic_math.install_variable_arithmetics junk cls !! name
    = basic_math.install_variable_arithmetics junk other !! name.
Proof.
  unfold arithmetic_slots. rewrite !elem_of_cons, elem_of_nil.
  unfold basic_math.install_variable_arithmetics.
  intros Hn. repeat (destruct Hn as [->|Hn]); [..|done];
    by simplify_map_eq.
Qed.

(** Property X8.
    The installer assigns the thirteen attributes of [arithmetic_slots]
    and nothing else: whatever the class held under those names is
    replaced, every other attribute is kept, and running it again changes
    nothing. *)
Theorem install_overrides_its_slots
    (cls other : gmap string (basic_math.method F)) :
  (∀ name, name ∈ arithmetic_slots →
     is_Some (basic_math.install_variable_arithmetics junk cls !! name)
     ∧ basic_math.install_variable_arithmetics junk cls !! name
       = basic_math.install_variable_arithmetics junk other !! name)
  ∧ (∀ name, name ∉ arithmetic_slots →
       basic_math.install_variable_arithmetics junk cls !! name
       = cls !! name)
  ∧ basic_math.install_variable_arithmetics junk
      (basic_math.install_variable_arithmetics junk cls)
    = basic_math.install_variable_arithmetics junk cls.
Proof.
  split_and!.
  - intros name. apply install_slot.
  - intros name. apply install_frame.
  - apply map_eq. intros name.
    destruct (decide (name ∈ arithmetic_slots)) as [Hin|Hout].
    + apply install_slot, Hin.
    + by rewrite install_frame.
Qed.

(** Property X9.
    The one-operand functions [neg], [exp] and [log] construct [Neg],
    [Exp] and [Log] and apply the operator to every element, on either
    backend and for an array of any shape.  Applied to their own results,
    [neg(neg(x))] holds [-(-a)] and [log(exp(x))] holds [log(exp(a))] for
    every element [a] of [x]; each is the array [x] again for an [x]
    whose elements these give back. *)
Theorem one_operand_round_trips lhs :
  let x := basic_math.data lhs in
  let value d := basic_math.data <$> basic_math.outcome d in
  let arr d := Ok (np.mk (np.shape x) d) in
  (basic_math.constructed (basic_math.neg junk lhs) = [basic_math.Neg]
   ∧ basic_math.constructed (basic_math.exp junk lhs)
     = [basic_math.Exp None]
   ∧ basic_math.constructed (basic_math.log junk lhs) = [basic_math.Log])
  ∧ (value (basic_math.neg junk lhs) = arr (fneg <$> np.data x)
     ∧ value (basic_math.exp junk lhs) = arr (fexp <$> np.data x)
     ∧ value (basic_math.log junk lhs) = arr (flog <$> np.data x))
  ∧ (∃ m, basic_math.outcome (basic_math.neg junk lhs) = Ok m
          ∧ value (basic_math.neg junk m)
            = arr ((λ a, fneg (fneg a)) <$> np.data x)
          ∧ (Forall (λ a, fneg (fneg a) = a) (np.data x) →
             value (basic_math.neg junk m) = Ok x))
  ∧ (∃ e, basic_math.outcome (basic_math.exp junk lhs) = Ok e
          ∧ value (basic_math.log junk e)
            = arr ((λ a, flog (fexp a)) <$> np.data x)
          ∧ (Forall (λ a, flog (fexp a) = a) (np.data x) →
             value (basic_math.log junk e) = Ok x)).
Proof.
  intros x value arr. subst value arr x. cbn beta.
  set (x := basic_math.data lhs).
  assert (Hid : ∀ f : F → F, Forall (λ a, f a = a) (np.data x) →
            np.mk (np.shape x) (f <$> np.data x) = x).
  { intros f Hf. destruct x as [sx dx]. cbn in *. f_equal.
    rewrite <- (list_fmap_id dx) at 2.
    by apply Forall_fmap_ext_1. }
  split_and!.
  - done.
  - done.
  - done.
  - run. done.
  - run. rewrite active_backend_one. by destruct (basic_math.device lhs).
  - run. rewrite active_backend_one. by destruct (basic_math.device lhs).
  - exists {| basic_math.data := np.negative x;
              basic_math.device := basic_math.active_backend [lhs];
              basic_math.creator := Some basic_math.Neg |}.
    split; [done|].
    match goal with |- ?v = _ ∧ _ => set (got := v) end.
    assert (Hv : got = Ok (np.mk (np.shape x)
                             ((λ a, fneg (fneg a)) <$> np.data x))).
    { unfold got. run. unfold np.negative, np.unop. cbn.
      by rewrite <- list_fmap_compose. }
    split; [exact Hv|]. intros Hf. rewrite Hv. f_equal. by apply Hid.
  - exists {| basic_math.data := np.exp x;
              basic_math.device := basic_math.device lhs;
              basic_math.creator :=
                Some (basic_math.Exp (Some (np.exp x))) |}.
    split.
    { run. rewrite active_backend_one.
      by destruct (basic_math.device lhs). }
    match goal with |- ?v = _ ∧ _ => set (got := v) end.
    assert (Hv : got = Ok (np.mk (np.shape x)
                             ((λ a, flog (fexp a)) <$> np.data x))).
    { unfold got. run. rewrite active_backend_one. cbn.
      destruct (basic_math.device lhs); cbn;
        unfold np.log, np.exp, np.unop; cbn;
        by rewrite <- list_fmap_compose. }
    split; [exact Hv|]. intros Hf. rewrite Hv. f_equal. by apply Hid.
Qed.

(** Property X10.
    The [backward] of [Neg], [Add], [AddConstant], [Sub],
    [SubFromConstant], [MulConstant] and [Exp] never reads the inputs of
    the forward step: it returns the same for any two input tuples, on
    either backend.  For [Neg], [Add] and [Sub] it returns [-gy],
    [(gy, gy)] and [(gy, -gy)]. *)
Theorem additive_backward_ignores_inputs (bk : backend)
    (f : basic_math.function F) v (y : option (np.ndarray F))
    (x x' : list (np.ndarray F)) (g : np.ndarray F)
    (gs : list (np.ndarray F)) :
  f ∈ [basic_math.Neg; basic_math.Add; basic_math.AddConstant v;
       basic_math.Sub; basic_math.SubFromConstant v;
       basic_math.MulConstant v; basic_math.Exp y] →
  basic_math.backward junk bk f x (g :: gs)
  = basic_math.backward junk bk f x' (g :: gs)
  ∧ basic_math.backward junk bk basic_math.Neg x (g :: gs)
    = Ok [np.mk (np.shape g) (fneg <$> np.data g)]
  ∧ basic_math.backward junk bk basic_math.Add x (g :: gs) = Ok [g; g]
  ∧ basic_math.backward junk bk basic_math.Sub x (g :: gs)
    = Ok [g; np.mk (np.shape g) (fneg <$> np.data g)].
Proof.
  intros Hf. split; [|by destruct bk].
  rewrite !elem_of_cons in Hf.
  destruct Hf as [->|[->|[->|[->|[->|[->|[->|Hf]]]]]]];
    [..|by apply elem_of_nil in Hf]; by destruct bk.
Qed.

End operands.

(** ** The layer at its edges *)

Section layer_edges.
Context {F : Type} `{!Scalar F}.
Implicit Types (x y z gy : np.ndarray F) (self : linear.Linear F).
Implicit Types (s rest : list nat) (d : list F).
Variable float32 : F → F.
Variable normal : F → F → nat → F.
Variables junkW junkb : nat → F.

Local Abbreviation init := (linear.__init__ float32 normal junkW junkb).

(** Property X11.
    [_as_mat] needs a leading axis to divide by.  An array without axes
    raises [IndexError], an empty batch raises [ZeroDivisionError]; every
    other array becomes a matrix with one row per batch entry, holding the
    same elements in the same order, so that reshaping it back returns the
    input and flattening it again changes nothing. *)
Theorem as_mat_flattens_or_raises x :
  match np.shape x with
  | [] => linear._as_mat x = Err IndexError
  | 0 :: _ => linear._as_mat x = Err ZeroDivisionError
  | n :: rest =>
      let m := np.mk [n; np.prod rest] (np.data x) in
      linear._as_mat x = Ok m
      ∧ np.size m = np.size x
      ∧ np.reshape m (np.shape x) = Ok x
      ∧ linear._as_mat m = Ok m
  end.
Proof.
  destruct x as [[|[|n] rest] d]; cbn [np.shape np.data]; [done|done|].
  split_and!.
  - by apply as_mat_Ok.
  - unfold np.size. cbn [np.shape]. by rewrite prod_two, prod_cons.
  - unfold np.reshape, np.size. cbn [np.shape np.data].
    by rewrite prod_two, prod_cons, Nat.eqb_refl.
  - rewrite as_mat_Ok by done. do 3 f_equal.
    rewrite prod_cons. change (np.prod []) with 1. f_equal. lia.
Qed.

(** Property X12.
    No layer is built for inputs without features: with [in_size = 0] the
    deviation [sqrt(1. / in_size)] divides by zero, whatever the other
    arguments.  A layer that [__init__] returns has arrays of the shapes
    and element counts the arguments ask for, its bias holds [bias]
    rounded to single precision, and it can be used at once: on either
    backend [forward] maps any non-empty batch with [in_size] features
    per entry to an array of shape [(n, out_size)]. *)
Theorem fresh_layer_runs in_size out_size (wscale bias : F) (nobias : bool)
    self :
  init in_size out_size wscale bias nobias = Ok self →
  in_size ≠ 0
  ∧ (∀ o (w c : F) nb, init 0 o w c nb = Err ZeroDivisionError)
  ∧ (layer_fits in_size out_size self ∧ bias_fits out_size self
     ∧ np.wf (linear.W self) ∧ np.wf (linear.gW self))
  ∧ (np.data <$> linear.b self
     = if nobias then None
       else Some (replicate out_size (float32 bias)))
  ∧ ∀ n rest d, n ≠ 0 → np.prod rest = in_size →
      ∃ y, linear.forward_cpu self [np.mk (n :: rest) d] = Ok [y]
           ∧ linear.forward_gpu self [np.mk (n :: rest) d] = Ok [y]
           ∧ np.shape y = [n; out_size] ∧ np.wf y.
Proof.
  destruct (decide (in_size = 0)) as [->|Hin]; [done|].
  destruct (init_Ok float32 normal junkW junkb in_size out_size wscale bias
              nobias Hin) as (dW & HdW & ->).
  intros [= <-].
  set (self := {| linear.W := np.mk [out_size; in_size] dW |}).
  assert (Hb : bias_fits out_size self).
  { unfold bias_fits, self. cbn. destruct nobias; [done|].
    split; [done|]. unfold np.wf. cbn. rewrite length_replicate.
    rewrite prod_cons. change (np.prod []) with 1. lia. }
  split_and!.
  - done.
  - done.
  - split_and!; [done|done|]. cbn. by destruct nobias.
  - done.
  - unfold np.wf. cbn. by rewrite prod_two.
  - unfold np.wf. cbn. by rewrite length_fmap, length_seq.
  - cbn. by destruct nobias.
  - intros n rest d Hn Hrest.
    eexists. split; [|split; [|split]].
    + by apply (forward_cpu_value self n rest in_size out_size dW d).
    + rewrite (forward_gpu_value self n rest in_size out_size dW d) by done.
      by apply (forward_cpu_value self n rest in_size out_size dW d).
    + done.
    + unfold np.wf. cbn [np.data np.shape]. rewrite prod_two.
      destruct (affine_rows_shape n in_size out_size dW
                  (np.data <$> linear.b self) d) as (Hl & Hr & _).
      { unfold self. cbn. destruct nobias; [done|]. cbn.
        by rewrite length_replicate. }
      by apply dot_wf.
Qed.

(** Property X13.
    [forward] checks its input only through the array operations it
    runs.  A batch whose entries do not have [in_size] features in all
    makes the matrix product raise [ValueError]; an empty tuple and an
    array without axes raise [IndexError], and an empty batch raises
    [ZeroDivisionError], all before the weights are looked at. *)
Theorem forward_rejects_misfit_input self in_size out_size dW n rest d :
  linear.W self = np.mk [out_size; in_size] dW →
  n ≠ 0 → np.prod rest ≠ in_size →
  linear.forward_cpu self [np.mk (n :: rest) d] = Err ValueError
  ∧ (∀ other : linear.Linear F,
       linear.forward_cpu other [] = Err IndexError
       ∧ linear.forward_cpu other [np.mk [] d] = Err IndexError
       ∧ linear.forward_cpu other [np.mk (0 :: rest) d]
         = Err ZeroDivisionError).
Proof.
  intros HW Hn Hrest. split; [|done].
  unfold linear.forward_cpu. cbn. rewrite as_mat_Ok by done. cbn.
  rewrite HW, T_matrix. cbn. unfold np.dot. cbn [np.shape np.data].
  by destruct (Nat.eqb_spec (np.prod rest) in_size).
Qed.

End layer_edges.

(** ** The state of the layer *)

Section layer_state.
Context {F : Type} `{!Scalar F}.
Implicit Types (x y z gy : np.ndarray F) (self : linear.Linear F).
Implicit Types (s rest : list nat) (d : list F).

Lemma bind_Ok_inv {A B} (m : result A) (k : A → result B) (v : B) :
  m ≫= k = Ok v → ∃ a, m = Ok a ∧ k a = Ok v.
Proof. destruct m as [a|e]; [by exists a|done]. Qed.

Lemma inplace_shape (f : F → F → F) (a c r : np.ndarray F) :
  np.inplace f a c = Ok r → np.shape r = np.shape a.
Proof.
  unfold np.inplace. destruct (np.broadcast_shapes _ _); [|done].
  destruct (decide _); [|done]. by intros [= <-].
Qed.

Lemma keeps_parameters_refl self : keeps_parameters self self.
Proof. done. Qed.

Lemma keeps_parameters_trans self mid after :
  keeps_parameters self mid → keeps_parameters mid after →
  keeps_parameters self after.
Proof.
  intros (H1 & H2 & H3 & H4) (H1' & H2' & H3' & H4').
  split_and!; congruence.
Qed.

Lemma gb_step_keeps self (gy : list (np.ndarray F)) after :
  match linear.gb self with
  | Some acc =>
      g ← basic_math.item gy 0; s ← np.sum0 g;
      acc' ← np.iadd acc s; Ok (linear.set_gb self acc')
  | None => Ok self
  end = Ok after →
  keeps_parameters self after.
Proof.
  destruct self as [W0 gW0 b0 [acc|]]; cbn [linear.gb]; [|by intros [= <-]].
  intros H1.
  apply bind_Ok_inv in H1 as (g & _ & H1).
  apply bind_Ok_inv in H1 as (s0 & _ & H1).
  apply bind_Ok_inv in H1 as (acc' & Hacc & H1).
  injection H1 as <-. apply inplace_shape in Hacc.
  split_and!; [done|done|done|]. cbn. by rewrite Hacc.
Qed.

Lemma backward_cpu_keeps self (x gy : list (np.ndarray F)) :
  keeps_parameters self (linear.backward_cpu self x gy).1.
Proof.
  unfold linear.backward_cpu.
  match goal with
  | |- context [match ?m with Ok _ => _ | Err _ => _ end] =>
      destruct m as [gW'|e] eqn:H1
  end; [|done].
  assert (HgW : np.shape gW' = np.shape (linear.gW self)).
  { repeat (apply bind_Ok_inv in H1 as (? & _ & H1)).
    by apply inplace_shape in H1. }
  match goal with
  | |- context [match ?m with Ok _ => _ | Err _ => _ end] =>
      destruct m as [after|e] eqn:H2
  end.
  - cbn [fst]. apply gb_step_keeps in H2.
    eapply keeps_parameters_trans; [|exact H2]. by split_and!.
  - cbn [fst]. by split_and!.
Qed.

Lemma backward_gpu_keeps self (x gy : list (np.ndarray F)) :
  keeps_parameters self (linear.backward_gpu self x gy).1.
Proof.
  unfold linear.backward_gpu.
  match goal with
  | |- context [match ?m with Ok _ => _ | Err _ => _ end] =>
      destruct m as [gW'|e] eqn:H1
  end; [|done].
  assert (HgW : np.shape gW' = np.shape (linear.gW self)).
  { repeat (apply bind_Ok_inv in H1 as (? & _ & H1)).
    destruct (decide _); [|done]. by apply inplace_shape in H1. }
  match goal with
  | |- context [match ?m with Ok _ => _ | Err _ => _ end] =>
      destruct m as [after|e] eqn:H2
  end.
  - cbn [fst]. apply gb_step_keeps in H2.
    eapply keeps_parameters_trans; [|exact H2]. by split_and!.
  - cbn [fst]. by split_and!.
Qed.

Lemma backward_all_keeps self
    (calls : list (list (np.ndarray F) * list (np.ndarray F))) :
  keeps_parameters self (linear.backward_all self calls).1.
Proof.
  revert self. induction calls as [|[x gy] calls IH]; intros self; [done|].
  cbn [linear.backward_all].
  pose proof (backward_cpu_keeps self x gy) as H1.
  destruct (linear.backward_cpu self x gy) as [mid [gx|e]]; [|done].
  cbn [fst] in H1. specialize (IH mid).
  destruct (linear.backward_all mid calls) as [after [gxs|e]];
    cbn [fst] in IH |- *; by eapply keeps_parameters_trans.
Qed.

(** Property X14.
    Whatever [backward] is given, and whether it returns or raises, on
    either backend and over any run of calls: [W] and [b] are the arrays
    they were, [gW] and [gb] keep their shapes, a layer without [gb] does
    not acquire one, and the two name tuples stay what they were. *)
Theorem backward_preserves_parameters self (x gy : list (np.ndarray F))
    (calls : list (list (np.ndarray F) * list (np.ndarray F))) :
  let unchanged after :=
    keeps_parameters self after
    ∧ linear.parameter_names after = linear.parameter_names self
    ∧ linear.gradient_names after = linear.gradient_names self in
  unchanged (linear.backward_cpu self x gy).1
  ∧ unchanged (linear.backward_gpu self x gy).1
  ∧ unchanged (linear.backward_all self calls).1.
Proof.
  intros unchanged.
  assert (Hu : ∀ after, keeps_parameters self after → unchanged after).
  { intros after Hk. split; [done|]. destruct Hk as (_ & Hb & _ & Hgb).
    unfold linear.parameter_names, linear.gradient_names. rewrite Hb.
    split; [done|].
    by destruct (linear.gb after), (linear.gb self). }
  split_and!; apply Hu.
  - apply backward_cpu_keeps.
  - apply backward_gpu_keeps.
  - apply backward_all_keeps.
Qed.

Lemma inplace_stretch_rows (f : F → F → F) (o i : nat) (d c : list F) :
  o ≠ 1 → length c = i →
  np.inplace f (np.mk [o; i] d) (np.mk [1; i] c)
  = Ok (np.mk [o; i] (zip_with f d (mjoin (replicate o c)))).
Proof.
  intros Ho Hc. unfold np.inplace. cbn [np.shape np.data].
  assert (Hs : np.broadcast_shapes [o; i] [1; i] = Some [o; i]).
  { unfold np.broadcast_shapes. cbn. rewrite Nat.eqb_refl.
    destruct (Nat.eqb_spec o 1) as [|_]; [done|]. done. }
  rewrite Hs, decide_True by done.
  unfold np.broadcast_to. cbn [length Nat.sub replicate app].
  rewrite bcast_cons.
  destruct (Nat.eqb_spec 1 o) as [|_]; [congruence|].
  rewrite bcast_refl; [done|].
  rewrite prod_cons. change (np.prod []) with 1. lia.
Qed.

Lemma inplace_stretch_one (f : F → F → F) (o : nat) (d : list F) (c : F) :
  o ≠ 1 →
  np.inplace f (np.mk [o] d) (np.mk [1] [c])
  = Ok (np.mk [o] (zip_with f d (replicate o c))).
Proof.
  intros Ho. unfold np.inplace. cbn [np.shape np.data].
  assert (Hs : np.broadcast_shapes [o] [1] = Some [o]).
  { unfold np.broadcast_shapes. cbn.
    destruct (Nat.eqb_spec o 1) as [|_]; [done|]. done. }
  rewrite Hs, decide_True by done.
  unfold np.broadcast_to. cbn [length Nat.sub replicate app].
  rewrite bcast_cons.
  destruct (Nat.eqb_spec 1 o) as [|_]; [congruence|].
  cbn [np.bcast]. change [c] with (replicate 1 c).
  rewrite (join_replicate_replicate o 1 c). by rewrite Nat.mul_1_r.
Qed.

(** Property X15.
    [backward] is not all-or-nothing.  An output gradient with a single
    column, given to a layer with another number of outputs, passes the
    two accumulations, because the array library stretches the
    contribution over the rows of [gW] and over [gb]; then [gy.dot(W)]
    raises [ValueError].  The call fails, and the layer keeps what was
    added. *)
Theorem failed_backward_keeps_partial_update self in_size out_size
    (n : nat) rest d (dg : list F) :
  layer_fits in_size out_size self →
  n ≠ 0 → np.prod rest = in_size → out_size ≠ 1 →
  let x := np.mk (n :: rest) d in
  let gy := np.mk [n; 1] dg in
  ∃ (cW : list F) (cb : F),
    gW_contribution [x] [gy] = Ok (np.mk [1; in_size] cW)
    ∧ gb_contribution [gy] = Ok (np.mk [1] [cb])
    ∧ linear.backward_cpu self [x] [gy]
      = ({| linear.W := linear.W self;
            linear.gW :=
              np.mk [out_size; in_size]
                (zip_with fadd (np.data (linear.gW self))
                   (mjoin (replicate out_size cW)));
            linear.b := linear.b self;
            linear.gb :=
              (λ a, np.mk [out_size]
                      (zip_with fadd (np.data a) (replicate out_size cb)))
                <$> linear.gb self |},
         Err ValueError).
Proof.
  intros (HW & HgW & Hgb) Hn Hin Ho x gy.
  destruct self as [[sW dW] [sgW dgW] bias accb]. cbn in HW, HgW, Hgb.
  subst sW sgW x gy.
  assert (HcW : ∃ cW, gW_contribution [np.mk (n :: rest) d] [np.mk [n; 1] dg]
                        = Ok (np.mk [1; in_size] cW) ∧ length cW = in_size).
  { unfold gW_contribution. cbn. rewrite as_mat_Ok by done. cbn.
    rewrite T_matrix. cbn. rewrite Hin.
    destruct (np.dot _ _) as [[sc cW]|] eqn:Hdot;
      [|by rewrite dot_matrix in Hdot].
    apply dot_data_length in Hdot as [Hs Hl]. cbn in Hs, Hl. subst sc.
    exists cW. split; [done|lia]. }
  destruct HcW as (cW & HcW & HlW).
  exists cW. eexists. split; [exact HcW|]. split; [reflexivity|].
  unfold linear.backward_cpu. unfold gW_contribution in HcW.
  cbn [linear.gW linear.W linear.gb linear.b]. cbn in HcW |- *.
  destruct (linear._as_mat _) as [X|]; [|done]. cbn in HcW |- *.
  destruct (np.T _) as [gT|]; [|done]. cbn in HcW |- *.
  rewrite HcW. cbn. unfold np.iadd.
  rewrite inplace_stretch_rows by done.
  unfold linear.set_gW, linear.set_gb. cbn.
  assert (Hdot : np.dot (np.mk [n; 1] dg) (np.mk [out_size; in_size] dW)
                 = Err ValueError).
  { unfold np.dot. cbn [np.shape np.data].
    destruct (Nat.eqb_spec 1 out_size) as [|_]; [congruence|done]. }
  destruct accb as [[sb db]|]; cbn in Hgb |- *.
  - subst sb. unfold np.sum0. cbn.
    rewrite inplace_stretch_one by done. cbn. by rewrite Hdot.
  - by rewrite Hdot.
Qed.

(** Property X16.
    A [backward] that cannot form [gyᵀ·X] raises before it touches the
    layer: with an output gradient for another number of batch entries
    ([ValueError], on the CPU), and on either backend with an empty tuple
    in place of the input or of the gradient ([IndexError]) and with an
    empty batch ([ZeroDivisionError]). *)
Theorem early_backward_failure_leaves_layer self (n m k : nat) rest d
    (dg : list F) :
  n ≠ 0 → m ≠ n →
  let x := np.mk (n :: rest) d in
  let gy := np.mk [m; k] dg in
  (linear.backward_cpu self [x] [gy] = (self, Err ValueError)
   ∧ linear.backward_cpu self [] [gy] = (self, Err IndexError)
   ∧ linear.backward_cpu self [x] [] = (self, Err IndexError)
   ∧ linear.backward_cpu self [np.mk (0 :: rest) d] [gy]
     = (self, Err ZeroDivisionError))
  ∧ (linear.backward_gpu self [] [gy] = (self, Err IndexError)
     ∧ linear.backward_gpu self [x] [] = (self, Err IndexError)
     ∧ linear.backward_gpu self [np.mk (0 :: rest) d] [gy]
       = (self, Err ZeroDivisionError)).
Proof.
  intros Hn Hm x gy. subst x gy.
  assert (Hdot : ∀ X, np.dot (np.mk [k; m] X) (np.mk [n; np.prod rest] d)
                      = Err ValueError).
  { intros X. unfold np.dot. cbn [np.shape np.data].
    destruct (Nat.eqb_spec m n) as [|_]; [congruence|done]. }
  split; split_and!; try done.
  - unfold linear.backward_cpu. cbn. rewrite as_mat_Ok by done. cbn.
    rewrite T_matrix. cbn. by rewrite Hdot.
  - unfold linear.backward_cpu. cbn. by rewrite as_mat_Ok by done.
  - unfold linear.backward_gpu. cbn. by rewrite as_mat_Ok by done.
Qed.

Lemma rows_app (n1 n2 k : nat) (d1 d2 : list F) :
  length d1 = n1 * k →
  np.rows (n1 + n2) k (d1 ++ d2) = np.rows n1 k d1 ++ np.rows n2 k d2.
Proof.
  unfold np.rows. revert d1. induction n1 as [|n1 IH]; intros d1 Hd.
  - destruct d1; [done|]. cbn in Hd. lia.
  - cbn [Nat.add replicate reshape]. cbn in Hd.
    rewrite take_app_le, drop_app_le by lia. cbn. f_equal.
    apply IH. rewrite length_drop. lia.
Qed.

(** Property X18.
    [forward] treats the entries of a batch one by one: the output for two
    batches stacked on one another is the two outputs stacked on one
    another. *)
Theorem forward_splits_over_batch self in_size out_size dW
    (n1 n2 : nat) (d1 d2 : list F) :
  linear.W self = np.mk [out_size; in_size] dW →
  length dW = out_size * in_size →
  bias_fits out_size self →
  n1 ≠ 0 → n2 ≠ 0 → length d1 = n1 * in_size →
  ∃ y1 y2 : list F,
    linear.forward_cpu self [np.mk [n1; in_size] d1]
      = Ok [np.mk [n1; out_size] y1]
    ∧ linear.forward_cpu self [np.mk [n2; in_size] d2]
      = Ok [np.mk [n2; out_size] y2]
    ∧ linear.forward_cpu self [np.mk [n1 + n2; in_size] (d1 ++ d2)]
      = Ok [np.mk [n1 + n2; out_size] (y1 ++ y2)]
    ∧ length y1 = n1 * out_size.
Proof.
  intros HW HdW Hb H1 H2 Hd1.
  assert (Hp : np.prod [in_size] = in_size).
  { rewrite prod_cons. change (np.prod []) with 1. lia. }
  eexists _, _. split_and!.
  - by apply (forward_cpu_value self n1 [in_size] in_size out_size dW d1).
  - by apply (forward_cpu_value self n2 [in_size] in_size out_size dW d2).
  - rewrite (forward_cpu_value self (n1 + n2) [in_size] in_size out_size dW)
      by (done || lia).
    unfold affine_rows. rewrite rows_app by done.
    by rewrite fmap_app, join_app.
  - destruct (affine_rows_shape n1 in_size out_size dW
                (np.data <$> linear.b self) d1) as (Hl & Hr & _).
    { unfold bias_fits in Hb. destruct (linear.b self) as [a|]; [|done].
      destruct Hb as [Hs Hw]. unfold np.wf in Hw. rewrite Hs in Hw.
      cbn. rewrite Hw, prod_cons. change (np.prod []) with 1. lia. }
    by apply dot_wf.
Qed.

End layer_state.

(** ** Instances *)

Lemma reversed_dispatch_swaps_operands_witness :
  let x := basic_math.data a_vector in
  let gy := np.mk [3] [1; 1; 1]%Z in
  np.wf x
  ∧ fits (Num 6%Z) x
  ∧ np.shape gy = np.shape x
  ∧ np.wf gy
  ∧ fin_log_domain (-2)%Z = false
  ∧ basic_math.data <$>
      basic_math.outcome
        (basic_math.rsub zero_junk a_vector (basic_math.Const (Num 6%Z)))
    = Ok (np.mk [3] [5; 4; 3]%Z)
  ∧ basic_math.data <$>
      basic_math.outcome
        (basic_math.rdiv zero_junk a_vector (basic_math.Const (Num 6%Z)))
    = Ok (np.mk [3] [6; 3; 2]%Z)
  ∧ basic_math.backward zero_junk GPU (basic_math.DivFromConstant (Num 6%Z))
      [x] [gy]
    = Ok [np.mk [3] [-6; -2; -1]%Z]
  ∧ basic_math.backward zero_junk GPU
      (basic_math.PowConstVar (Num (-2)%Z) None) [x] [gy]
    = Err ValueError.
Proof.
  intros x gy.
  assert (Hx : np.wf x) by reflexivity.
  assert (Hv : fits (Num 6%Z) x) by exact I.
  assert (Hs : np.shape gy = np.shape x) by reflexivity.
  assert (Hg : np.wf gy) by reflexivity.
  assert (Hk : fin_log_domain (-2)%Z = false) by reflexivity.
  split; [exact Hx|]. split; [exact Hv|]. split; [exact Hs|].
  split; [exact Hg|]. split; [exact Hk|].
  destruct (reversed_dispatch_swaps_operands zero_junk a_vector (Num 6%Z) gy
              (-2)%Z Hx Hv Hs Hg)
    as (_ & (Hsub & Hdiv & _) & _ & [_ Hback] & _ & _ & Hbug).
  destruct (Hbug Hk) as [_ Hraise].
  split; [exact Hsub|]. split; [exact Hdiv|].
  split; [exact Hback | exact Hraise].
Defined.

Lemma backward_twice_accumulates_witness :
  layer_fits 3 2 a_layer
  ∧ call_fits 3 2 [a_batch] [a_gradient] = true
  ∧ call_fits 3 2 [a_row] [a_row_gradient] = true
  ∧ ∃ self1 self2 gx1 gx2,
      linear.backward_cpu a_layer [a_batch] [a_gradient] = (self1, Ok [gx1])
      ∧ linear.backward_cpu self1 [a_row] [a_row_gradient]
        = (self2, Ok [gx2])
      ∧ linear.gW self2 = np.mk [2; 3] [13; 15; 17; 16; 19; 22]%Z
      ∧ linear.gb self2 = Some (np.mk [2] [10; 10]%Z)
      ∧ gx1 = np.mk [2; 3; 1] [3; 5; 7; 6; 9; 12]%Z.
Proof.
  assert (Hl : layer_fits 3 2 a_layer) by (repeat split; reflexivity).
  assert (H1 : call_fits 3 2 [a_batch] [a_gradient] = true) by reflexivity.
  assert (H2 : call_fits 3 2 [a_row] [a_row_gradient] = true) by reflexivity.
  split; [exact Hl|]. split; [exact H1|]. split; [exact H2|].
  destruct (backward_twice_accumulates a_layer 3 2 [a_batch] [a_gradient]
              [a_row] [a_row_gradient] Hl H1 H2)
    as (cW1 & cb1 & gx1 & cW2 & cb2 & gx2 & self1 & self2
        & _ & [Hs1 Hs2] & _).
  exists self1, self2, gx1, gx2.
  split; [exact Hs1|]. split; [exact Hs2|].
  vm_compute in Hs1. injection Hs1 as <- <-.
  vm_compute in Hs2. injection Hs2 as <- <-.
  repeat split; reflexivity.
Defined.

Lemma gb_mirrors_bias_gW_always_witness :
  ∃ self,
    linear.__init__ exact count_up seven_junk seven_junk 3 2 1%Z 0%Z true
      = Ok self
    ∧ linear.parameter_names self = ["W"]
    ∧ linear.gradient_names self = ["gW"]
    ∧ np.shape (linear.gW self) = np.shape (linear.W self).
Proof.
  eexists. split; [reflexivity|].
  destruct (gb_mirrors_bias_gW_always exact count_up seven_junk seven_junk
              3 2 1%Z 0%Z true _ eq_refl)
    as ((_ & _ & Hshape) & _ & _ & _ & Hno & _).
  destruct (Hno eq_refl) as [Hp Hg].
  split; [exact Hp|]. split; [exact Hg | exact Hshape].
Defined.

Lemma no_bias_layer_keeps_gW :
  ∃ self,
    linear.__init__ exact count_up seven_junk seven_junk 3 2 1%Z 0%Z true
      = Ok self
    ∧ ¬ accumulators_mirror_bias self.
Proof.
  eexists. split; [reflexivity|].
  intros [HgW _]. cbn in HgW.
  assert (Hin : "gW" ∈ ["gW"]) by apply list_elem_of_here.
  apply HgW in Hin. apply list_elem_of_singleton in Hin. discriminate Hin.
Qed.

Lemma div_by_zero_number_raises_witness :
  fis_zero 0%Z = true
  ∧ np.wf (basic_math.data a_vector)
  ∧ basic_math.div zero_junk a_vector (basic_math.Const (Num 0%Z))
    = basic_math.raised ZeroDivisionError
  ∧ basic_math.data <$>
      basic_math.outcome
        (basic_math.div zero_junk a_vector
           (basic_math.Var
              {| basic_math.data := np.mk [3] [0; 1; 2]%Z;
                 basic_math.device := CPU;
                 basic_math.creator := None |}))
    = Ok (np.mk [3] [0; 2; 1]%Z).
Proof.
  assert (Hc : fis_zero 0%Z = true) by reflexivity.
  assert (Hx : np.wf (basic_math.data a_vector)) by reflexivity.
  split; [exact Hc|]. split; [exact Hx|].
  destruct (div_by_zero_number_raises zero_junk a_vector 0%Z
              (np.mk [3] [0; 1; 2]%Z) Hc Hx eq_refl eq_refl)
    as (Hnum & Hvar & _).
  split; [exact Hnum | exact Hvar].
Defined.

Lemma add_constructs_before_it_fails :
  ¬ raises_before_construction
      (basic_math.add zero_junk a_vector (basic_math.Const (Obj a_string))).
Proof. intros [Hnone _]. discriminate Hnone. Qed.

Lemma dispatch_constructs_before_type_error_witness :
  basic_math.device a_vector = CPU
  ∧ basic_math.constructed
      (basic_math.add zero_junk a_vector (basic_math.Const (Obj a_string)))
    = [basic_math.AddConstant (Obj a_string)]
  ∧ basic_math.outcome
      (basic_math.add zero_junk a_vector (basic_math.Const (Obj a_string)))
    = Err TypeError
  ∧ basic_math.sub zero_junk a_vector (basic_math.Const (Obj a_string))
    = basic_math.raised TypeError
  ∧ basic_math.data <$>
      basic_math.outcome
        (basic_math.add zero_junk a_vector (basic_math.Const (Obj a_list)))
    = Ok (np.mk [3] [11; 22; 33]%Z)
  ∧ basic_math.sub zero_junk a_vector (basic_math.Const (Obj a_list))
    = basic_math.raised TypeError.
Proof.
  assert (Hd : basic_math.device a_vector = CPU) by reflexivity.
  split; [exact Hd|].
  destruct (dispatch_constructs_before_type_error zero_junk a_vector
              a_string) as ((Hmade & _) & [Hsub _] & _ & Hcpu).
  destruct (Hcpu Hd) as [Hrej _].
  destruct (Hrej TypeError eq_refl) as (Hadd & _).
  destruct (dispatch_constructs_before_type_error zero_junk a_vector
              a_list) as (_ & [Hsubl _] & _ & Hcpul).
  destruct (Hcpul Hd) as [_ Hacc].
  destruct (Hacc (np.mk [3] [10; 20; 30]%Z) eq_refl eq_refl eq_refl eq_refl)
    as [Haddl _].
  split; [exact Hmade|]. split; [exact Hadd|].
  split; [exact (Hsub TypeError eq_refl)|].
  split; [exact Haddl | exact (Hsubl TypeError eq_refl)].
Defined.

Lemma forward_is_affine_witness :
  linear.W a_layer = np.mk [2; 3] [0; 1; 2; 3; 4; 5]%Z
  ∧ bias_fits 2 a_layer
  ∧ linear.forward_cpu a_layer [np.mk [2; 3] [1; 2; 3; 4; 5; 6]%Z]
    = Ok [np.mk [2; 2] [13; 31; 22; 67]%Z].
Proof.
  assert (HW : linear.W a_layer = np.mk [2; 3] [0; 1; 2; 3; 4; 5]%Z)
    by reflexivity.
  assert (Hb : bias_fits 2 a_layer) by (split; reflexivity).
  split; [exact HW|]. split; [exact Hb|].
  destruct (forward_is_affine exact count_up seven_junk seven_junk a_layer
              2 3 2 [0; 1; 2; 3; 4; 5]%Z [1; 2; 3; 4; 5; 6]%Z
              HW eq_refl Hb) as [(Hfwd & _) _]; [lia|].
  exact Hfwd.
Defined.


Lemma reflected_add_mul_commute_witness :
  (∀ a b : Z, fadd a b = fadd b a)
  ∧ (∀ a b : Z, fmul a b = fmul b a)
  ∧ basic_math.binary_op
      (basic_math.install_variable_arithmetics zero_junk ∅) "__radd__"
      a_vector (basic_math.Const (Num 10%Z))
    = basic_math.add zero_junk a_vector (basic_math.Const (Num 10%Z))
  ∧ basic_math.AddConstant_forward (Num 10%Z) [basic_math.data a_vector]
    = (c ← basic_math.as_array (Num 10%Z);
       r ← np.add c (basic_math.data a_vector); Ok [r]).
Proof.
  assert (Ha : ∀ a b : Z, fadd a b = fadd b a) by (intros; cbn; lia).
  assert (Hm : ∀ a b : Z, fmul a b = fmul b a) by (intros; cbn; lia).
  split; [exact Ha|]. split; [exact Hm|].
  destruct (reflected_add_mul_commute zero_junk ∅ a_vector (Num 10%Z) Ha Hm)
    as (_ & (Hradd & _) & Hfwd & _).
  split; [exact Hradd | exact Hfwd].
Defined.

Lemma pow_const_var_backends_diverge_witness :
  fin_log_domain (-2)%Z = false
  ∧ is_Ok (basic_math.backward zero_junk CPU
             (basic_math.PowConstVar (Num (-2)%Z)
                (Some (np.mk [3] [-2; 4; -8]%Z)))
             [np.mk [3] [1; 2; 3]%Z] [np.mk [3] [1; 1; 1]%Z]) = true
  ∧ basic_math.backward zero_junk GPU
      (basic_math.PowConstVar (Num (-2)%Z) None)
      [np.mk [3] [1; 2; 3]%Z] [np.mk [3] [1; 1; 1]%Z]
    = Err ValueError.
Proof.
  assert (Hc : fin_log_domain (-2)%Z = false) by reflexivity.
  split; [exact Hc|].
  destruct (pow_const_var_backends_diverge zero_junk (-2)%Z [3]
              [1; 2; 3]%Z [1; 1; 1]%Z Hc eq_refl eq_refl)
    as (_ & Hcpu & Hgpu).
  split; [|exact Hgpu].
  change (np.mk [3] [-2; 4; -8]%Z)
    with (np.mk [3] (zip_with fpow (replicate (np.prod [3]) (-2)%Z)
                       [1; 2; 3]%Z)).
  by rewrite Hcpu.
Defined.

Lemma accumulators_start_uninitialised_and_only_grow_witness :
  ∃ self self' gxs,
    linear.__init__ exact count_up seven_junk zero_junk 3 2 1%Z 5%Z false
      = Ok self
    ∧ linear.gW self = np.mk [2; 3] [7; 7; 7; 7; 7; 7]%Z
    ∧ linear.backward_all self
        [([a_batch], [a_gradient]); ([a_row], [a_row_gradient])]
      = (self', Ok gxs)
    ∧ linear.gW self' = np.mk [2; 3] [13; 15; 17; 16; 19; 22]%Z.
Proof.
  destruct (accumulators_start_uninitialised_and_only_grow
              exact count_up seven_junk zero_junk 3 2 1%Z 5%Z false
              [([a_batch], [a_gradient]); ([a_row], [a_row_gradient])])
    as (self & cWs & cbs & self' & gxs & Hinit & [HgW _] & _ & Hrun & _);
    [lia|reflexivity|].
  exists self, self', gxs.
  split; [exact Hinit|]. split; [exact HgW|]. split; [exact Hrun|].
  vm_compute in Hinit. injection Hinit as <-.
  vm_compute in Hrun. injection Hrun as <- _.
  reflexivity.
Defined.

Lemma backend_parity_witness :
  (∀ a : Z, fpow a (flit 2) = fmul a a)
  ∧ fits (Num 6%Z) (np.mk [3] [1; 2; 3]%Z)
  ∧ (∃ r,
       basic_math.backward zero_junk CPU
         (basic_math.DivFromConstant (Num 6%Z))
         [np.mk [3] [1; 2; 3]%Z] [np.mk [3] [1; 1; 1]%Z] = Ok r
       ∧ basic_math.backward zero_junk GPU
           (basic_math.DivFromConstant (Num 6%Z))
           [np.mk [3] [1; 2; 3]%Z] [np.mk [3] [1; 1; 1]%Z] = Ok r)
  ∧ basic_math.forward zero_junk CPU (basic_math.PowConstVar (Num 6%Z) None)
      [np.mk [3] [1; 2; 3]%Z]
    = Ok (basic_math.PowConstVar (Num 6%Z)
            (Some (np.mk [3] [6; 36; 216]%Z)),
          [np.mk [3] [6; 36; 216]%Z])
  ∧ basic_math.forward zero_junk GPU (basic_math.PowConstVar (Num 6%Z) None)
      [np.mk [3] [1; 2; 3]%Z]
    = Ok (basic_math.PowConstVar (Num 6%Z) None,
          [np.mk [3] [4; 16; 64]%Z]).
Proof.
  assert (Hsq : ∀ a : Z, fpow a (flit 2) = fmul a a) by (intros a; cbn; lia).
  assert (Hv : fits (Num 6%Z) (np.mk [3] [1; 2; 3]%Z)) by exact I.
  assert (Hb : bias_fits 2 a_layer) by (split; reflexivity).
  assert (Hl : layer_fits 3 2 a_layer) by (repeat split; reflexivity).
  split; [exact Hsq|]. split; [exact Hv|].
  destruct (backend_parity zero_junk [3] [1; 2; 3]%Z [4; 5; 6]%Z [1; 1; 1]%Z
              (Num 6%Z) a_layer 3 2 [0; 1; 2; 3; 4; 5]%Z a_batch a_gradient
              eq_refl eq_refl eq_refl Hv eq_refl eq_refl Hb Hl eq_refl)
    as (_ & _ & Hdiv & _ & _ & _ & _ & _ & [Hcpu Hgpu]).
  split; [exact (Hdiv Hsq)|]. split; [exact Hcpu | exact Hgpu].
Defined.

Lemma dispatch_on_graph_values_witness :
  let rhs := {| basic_math.data := np.mk [3] [4; 5; 6]%Z;
                basic_math.device := CPU;
                basic_math.creator := None |} in
  np.wf (basic_math.data a_vector)
  ∧ np.wf (basic_math.data rhs)
  ∧ np.shape (basic_math.data rhs) = np.shape (basic_math.data a_vector)
  ∧ basic_math.data <$>
      basic_math.outcome (basic_math.sub zero_junk a_vector (basic_math.Var rhs))
    = Ok (np.mk [3] [-3; -3; -3]%Z)
  ∧ basic_math.data <$>
      basic_math.outcome (basic_math.rsub zero_junk a_vector (basic_math.Var rhs))
    = Ok (np.mk [3] [3; 3; 3]%Z).
Proof.
  intros rhs.
  assert (Ha : np.wf (basic_math.data a_vector)) by reflexivity.
  assert (Hb : np.wf (basic_math.data rhs)) by reflexivity.
  assert (Hs : np.shape (basic_math.data rhs)
               = np.shape (basic_math.data a_vector)) by reflexivity.
  split; [exact Ha|]. split; [exact Hb|]. split; [exact Hs|].
  destruct (dispatch_on_graph_values zero_junk a_vector rhs Ha Hb Hs)
    as (_ & [_ Hsub] & [_ Hrsub] & _).
  split; [exact Hsub | exact Hrsub].
Defined.

Lemma dispatch_on_constants_witness :
  let gy := np.mk [3] [1; 1; 1]%Z in
  np.wf (basic_math.data a_vector)
  ∧ fits (Num 2%Z) (basic_math.data a_vector)
  ∧ fis_zero 1%Z = false
  ∧ basic_math.constructed
      (basic_math.sub zero_junk a_vector (basic_math.Const (Num 2%Z)))
    = [basic_math.AddConstant (Num (-2)%Z)]
  ∧ basic_math.data <$>
      basic_math.outcome
        (basic_math.sub zero_junk a_vector (basic_math.Const (Num 2%Z)))
    = Ok (np.mk [3] [-1; 0; 1]%Z)
  ∧ basic_math.backward zero_junk CPU (basic_math.PowVarConst (Num 2%Z))
      [basic_math.data a_vector] [gy]
    = Ok [np.mk [3] [2; 4; 6]%Z].
Proof.
  intros gy.
  assert (Hx : np.wf (basic_math.data a_vector)) by reflexivity.
  assert (Hv : fits (Num 2%Z) (basic_math.data a_vector)) by exact I.
  assert (Hk : fis_zero 1%Z = false) by reflexivity.
  split; [exact Hx|]. split; [exact Hv|]. split; [exact Hk|].
  destruct (dispatch_on_constants zero_junk a_vector (Num 2%Z) 1%Z gy
              Hx Hv Hk eq_refl eq_refl)
    as (_ & [Hc Hsub] & _ & _ & (_ & _ & Hpow)).
  split; [exact Hc|]. split; [exact Hsub | exact Hpow].
Defined.

Lemma forward_output_cache_witness :
  fits (Num 2%Z) (np.mk [3] [1; 2; 3]%Z)
  ∧ basic_math.forward zero_junk GPU (basic_math.Exp None)
      [np.mk [3] [1; 2; 3]%Z]
    = Ok (basic_math.Exp (Some (np.mk [3] [2; 4; 8]%Z)),
          [np.mk [3] [2; 4; 8]%Z])
  ∧ basic_math.backward zero_junk GPU (basic_math.Exp None)
      [np.mk [3] [1; 2; 3]%Z] [np.mk [3] [1; 1; 1]%Z]
    = Err AttributeError
  ∧ basic_math.backward zero_junk CPU (basic_math.PowVarVar None)
      [np.mk [3] [1; 2; 3]%Z; np.mk [3] [1; 1; 1]%Z]
      [np.mk [3] [1; 1; 1]%Z]
    = Err AttributeError.
Proof.
  assert (Hv : fits (Num 2%Z) (np.mk [3] [1; 2; 3]%Z)) by exact I.
  split; [exact Hv|].
  destruct (forward_output_cache zero_junk GPU [3] [1; 2; 3]%Z [1; 1; 1]%Z
              [1; 1; 1]%Z (Num 2%Z) None eq_refl eq_refl eq_refl Hv)
    as ((Hfwd & _ & Hexp) & (_ & _ & _ & Hpow & _) & _).
  split; [exact Hfwd|]. split; [exact Hexp | exact Hpow].
Defined.

Lemma binary_forward_follows_broadcasting_witness :
  basic_math.Mul ∈ [basic_math.Add; basic_math.Sub; basic_math.Mul;
                    basic_math.Div; basic_math.PowVarVar (F := Z) None]
  ∧ basic_math.forward zero_junk CPU basic_math.Mul
      [np.mk [2; 3] [1; 2; 3; 4; 5; 6]%Z; np.mk [2] [1; 2]%Z]
    = Err ValueError.
Proof.
  assert (Hf : basic_math.Mul
               ∈ [basic_math.Add; basic_math.Sub; basic_math.Mul;
                  basic_math.Div; basic_math.PowVarVar (F := Z) None]).
  { do 2 apply list_elem_of_further. apply list_elem_of_here. }
  split; [exact Hf|].
  exact (binary_forward_follows_broadcasting zero_junk basic_math.Mul None
           (np.mk [2; 3] [1; 2; 3; 4; 5; 6]%Z) (np.mk [2] [1; 2]%Z) Hf).
Defined.

Lemma backward_keeps_broadcast_shape_witness :
  let x1 := np.mk [3] [1; 2; 3]%Z in
  let gy := np.mk [2; 3] [1; 1; 1; 1; 1; 1]%Z in
  basic_math.Mul_backward_cpu [np.mk [2; 3] [1; 2; 3; 4; 5; 6]%Z; x1] [gy]
  = Ok [np.mk [2; 3] [1; 2; 3; 1; 2; 3]%Z;
        np.mk [2; 3] [1; 2; 3; 4; 5; 6]%Z]
  ∧ np.shape gy ≠ np.shape x1.
Proof.
  intros x1 gy.
  destruct (backward_keeps_broadcast_shape 2 3 [1; 2; 3; 4; 5; 6]%Z
              [1; 2; 3]%Z [1; 1; 1; 1; 1; 1]%Z eq_refl eq_refl eq_refl)
    as (_ & [_ Hmul] & Hshape).
  split; [exact Hmul | exact Hshape].
Defined.

Lemma add_mul_symmetric_witness :
  (∀ a b : Z, fadd a b = fadd b a)
  ∧ (∀ a b : Z, fmul a b = fmul b a)
  ∧ basic_math.Mul_backward_cpu
      [np.mk [3] [4; 5; 6]%Z; np.mk [3] [1; 2; 3]%Z] [np.mk [3] [1; 1; 1]%Z]
    = reverse <$>
        basic_math.Mul_backward_cpu
          [np.mk [3] [1; 2; 3]%Z; np.mk [3] [4; 5; 6]%Z]
          [np.mk [3] [1; 1; 1]%Z].
Proof.
  assert (Ha : ∀ a b : Z, fadd a b = fadd b a) by (intros; cbn; lia).
  assert (Hm : ∀ a b : Z, fmul a b = fmul b a) by (intros; cbn; lia).
  split; [exact Ha|]. split; [exact Hm|].
  destruct (add_mul_symmetric (np.mk [3] [1; 2; 3]%Z) (np.mk [3] [4; 5; 6]%Z)
              (np.mk [3] [1; 1; 1]%Z) Ha Hm) as (_ & _ & Hmul).
  exact Hmul.
Defined.

Lemma one_operand_round_trips_witness :
  Forall (λ a : Z, flog (fexp a) = a) (np.data (basic_math.data a_vector))
  ∧ basic_math.data <$>
      basic_math.outcome (basic_math.exp zero_junk a_vector)
    = Ok (np.mk [3] [2; 4; 8]%Z)
  ∧ ∃ e, basic_math.outcome (basic_math.exp zero_junk a_vector) = Ok e
         ∧ basic_math.data <$>
             basic_math.outcome (basic_math.log zero_junk e)
           = Ok (basic_math.data a_vector).
Proof.
  assert (Hx : Forall (λ a : Z, flog (fexp a) = a)
                 (np.data (basic_math.data a_vector))).
  { repeat (constructor; [reflexivity|]). constructor. }
  split; [exact Hx|].
  destruct (one_operand_round_trips zero_junk a_vector)
    as (_ & (_ & Hexp & _) & _ & (e & He & _ & Hround)).
  split; [exact Hexp|]. exists e. split; [exact He | exact (Hround Hx)].
Defined.

Lemma additive_backward_ignores_inputs_witness :
  basic_math.Sub
  ∈ [basic_math.Neg; basic_math.Add; basic_math.AddConstant (Num 2%Z);
     basic_math.Sub; basic_math.SubFromConstant (Num 2%Z);
     basic_math.MulConstant (Num 2%Z); basic_math.Exp None]
  ∧ basic_math.backward zero_junk GPU basic_math.Sub
      [np.mk [3] [1; 2; 3]%Z; np.mk [3] [4; 5; 6]%Z] [np.mk [3] [1; 1; 1]%Z]
    = basic_math.backward zero_junk GPU basic_math.Sub []
        [np.mk [3] [1; 1; 1]%Z]
  ∧ basic_math.backward zero_junk GPU basic_math.Sub []
      [np.mk [3] [1; 1; 1]%Z]
    = Ok [np.mk [3] [1; 1; 1]%Z; np.mk [3] [-1; -1; -1]%Z].
Proof.
  assert (Hf : basic_math.Sub
               ∈ [basic_math.Neg; basic_math.Add;
                  basic_math.AddConstant (Num 2%Z); basic_math.Sub;
                  basic_math.SubFromConstant (Num 2%Z);
                  basic_math.MulConstant (Num 2%Z); basic_math.Exp None]).
  { do 3 apply list_elem_of_further. apply list_elem_of_here. }
  split; [exact Hf|].
  destruct (additive_backward_ignores_inputs zero_junk GPU basic_math.Sub
              (Num 2%Z) None
              [np.mk [3] [1; 2; 3]%Z; np.mk [3] [4; 5; 6]%Z] []
              (np.mk [3] [1; 1; 1]%Z) [] Hf) as (Hsame & _ & _ & Hsub).
  split; [exact Hsame | exact Hsub].
Defined.

Lemma fresh_layer_runs_witness :
  ∃ self,
    linear.__init__ exact count_up seven_junk seven_junk 3 2 1%Z 5%Z false
      = Ok self
    ∧ np.shape (linear.W self) = [2; 3]
    ∧ ∃ y, linear.forward_cpu self [a_batch] = Ok [y]
           ∧ np.shape y = [2; 2].
Proof.
  eexists. split; [reflexivity|].
  destruct (fresh_layer_runs exact count_up seven_junk seven_junk
              3 2 1%Z 5%Z false _ eq_refl)
    as (_ & _ & ((HW & _) & _) & _ & Hrun).
  split; [exact HW|].
  destruct (Hrun 2 [3; 1] [1; 2; 3; 4; 5; 6]%Z) as (y & Hc & _ & Hs & _);
    [lia|reflexivity|].
  exists y. split; [exact Hc | exact Hs].
Defined.

Lemma forward_rejects_misfit_input_witness :
  linear.W a_layer = np.mk [2; 3] [0; 1; 2; 3; 4; 5]%Z
  ∧ np.prod [2] ≠ 3
  ∧ linear.forward_cpu a_layer [np.mk [2; 2] [1; 2; 3; 4]%Z]
    = Err ValueError.
Proof.
  assert (HW : linear.W a_layer = np.mk [2; 3] [0; 1; 2; 3; 4; 5]%Z)
    by reflexivity.
  assert (Hp : np.prod [2] ≠ 3) by (vm_compute; lia).
  split; [exact HW|]. split; [exact Hp|].
  destruct (forward_rejects_misfit_input a_layer 3 2 [0; 1; 2; 3; 4; 5]%Z
              2 [2] [1; 2; 3; 4]%Z HW) as [Hfwd _]; [lia|exact Hp|].
  exact Hfwd.
Defined.

Lemma failed_backward_keeps_partial_update_witness :
  layer_fits 3 2 a_layer
  ∧ ∃ after,
      linear.backward_cpu a_layer [a_batch] [np.mk [2; 1] [1; 2]%Z]
        = (after, Err ValueError)
      ∧ linear.gW after = np.mk [2; 3] [16; 19; 22; 16; 19; 22]%Z
      ∧ linear.gb after = Some (np.mk [2] [10; 10]%Z)
      ∧ linear.gW after ≠ linear.gW a_layer.
Proof.
  assert (Hl : layer_fits 3 2 a_layer) by (repeat split; reflexivity).
  split; [exact Hl|].
  destruct (failed_backward_keeps_partial_update a_layer 3 2 2 [3; 1]
              [1; 2; 3; 4; 5; 6]%Z [1; 2]%Z Hl)
    as (cW & cb & HcW & Hcb & Hstep); [lia|reflexivity|lia|].
  eexists. split; [exact Hstep|].
  vm_compute in HcW. injection HcW as <-.
  vm_compute in Hcb. injection Hcb as <-.
  split; [reflexivity|]. split; [reflexivity|]. discriminate.
Defined.

Lemma early_backward_failure_leaves_layer_witness :
  linear.backward_cpu a_layer [a_batch]
    [np.mk [3; 2] [1; 1; 1; 1; 1; 1]%Z]
  = (a_layer, Err ValueError)
  ∧ linear.backward_gpu a_layer [a_batch] [] = (a_layer, Err IndexError).
Proof.
  destruct (early_backward_failure_leaves_layer a_layer 2 3 2 [3; 1]
              [1; 2; 3; 4; 5; 6]%Z [1; 1; 1; 1; 1; 1]%Z)
    as ((Hcpu & _) & (_ & Hgpu & _)); [lia|lia|].
  split; [exact Hcpu | exact Hgpu].
Defined.

Lemma forward_splits_over_batch_witness :
  linear.W a_layer = np.mk [2; 3] [0; 1; 2; 3; 4; 5]%Z
  ∧ bias_fits 2 a_layer
  ∧ linear.forward_cpu a_layer [np.mk [2; 3] [1; 2; 3; 4; 5; 6]%Z]
    = Ok [np.mk [2; 2] [13; 31; 22; 67]%Z]
  ∧ linear.forward_cpu a_layer [np.mk [1; 3] [1; 1; 1]%Z]
    = Ok [np.mk [1; 2] [8; 17]%Z]
  ∧ linear.forward_cpu a_layer
      [np.mk [3; 3] [1; 2; 3; 4; 5; 6; 1; 1; 1]%Z]
    = Ok [np.mk [3; 2] [13; 31; 22; 67; 8; 17]%Z].
Proof.
  assert (HW : linear.W a_layer = np.mk [2; 3] [0; 1; 2; 3; 4; 5]%Z)
    by reflexivity.
  assert (Hb : bias_fits 2 a_layer) by (split; reflexivity).
  split; [exact HW|]. split; [exact Hb|].
  destruct (forward_splits_over_batch a_layer 3 2 [0; 1; 2; 3; 4; 5]%Z
              2 1 [1; 2; 3; 4; 5; 6]%Z [1; 1; 1]%Z HW eq_refl Hb)
    as (y1 & y2 & H1 & H2 & H12 & _); [lia|lia|reflexivity|].
  assert (E1 : y1 = [13; 31; 22; 67]%Z).
  { vm_compute in H1. by injection H1 as <-. }
  assert (E2 : y2 = [8; 17]%Z).
  { vm_compute in H2. by injection H2 as <-. }
  subst y1 y2. split; [exact H1|]. split; [exact H2 | exact H12].
Defined.
